(** * LTE cell searcher: a shallow embedding of [src/src/searcher.cpp]

    The acquisition pipeline of the scanner is numerical C++ on IT++
    vectors and matrices.  This development embeds the control flow and
    the integer and comparison logic of the stages named below and
    proves properties of them.

    Conventions of the embedding.
    - C++ integers are [Z]; every narrowing conversion the source
      performs ([int8], [uint8], [uint16]) is written out as a wrap.
    - [double] and [float] values are rationals [Q]: every finite
      floating-point number is a rational and the comparisons of the
      source are exact on them.  Rounding of products and sums, NaN and
      the infinities are outside the model.
    - IT++ vectors are lists, matrices are lists of rows; an access out
      of range (undefined behaviour in the source) reads a default.
    - Code of the repository that is not in [searcher.cpp] (the [Cell]
      class, the ROM tables, the LTE library, the macros) appears either
      as a Section variable or as a definition whose comment starts with
      "Modelled from the spec". *)

From Stdlib Require Import ZArith QArith Qround Lia Lqa List Bool Sorting.Sorted.
From stdpp Require Import base list.
Import ListNotations.

Local Open Scope Z_scope.

(** ** Integer helpers *)

(** Two's-complement narrowing to a signed 8-bit integer ([int8]). *)
Definition wrap_int8 (z : Z) : Z := (z + 128) mod 256 - 128.

(** Narrowing to [uint8] and [uint16]. *)
Definition wrap_uint8 (z : Z) : Z := z mod 256.
Definition wrap_uint16 (z : Z) : Z := z mod 65536.

(** IT++ [mod(k,n)]: [k - n*floor(k/n)], and [k] itself when [n = 0]. *)
Definition itpp_mod (k n : Z) : Z := if Z.eqb n 0 then k else k - n * (k / n).

(** Modelled from the spec: [itpp_ext::matlab_mod] is declared in
    [itpp_ext.h], which is not part of the sources at hand.  The spec
    uses it as the mathematical [mod] whose result lies in [0, n)
    ("(sfn_high*4 - g) mod 1024", "ind ... mod 9600"). *)
Definition matlab_mod (k n : Z) : Z := k mod n.

(** The integers [lo, lo+1, ..., lo+n-1]: the index set of a counting
    [for] loop. *)
Definition zrange (lo : Z) (n : nat) : list Z :=
  map (fun i => lo + Z.of_nat i) (seq 0 n).

(** ** The [Cell] record *)

Module cp_type_t.
Inductive t := NORMAL | EXTENDED | UNKNOWN.
End cp_type_t.

Module phich_duration_t.
Inductive t := UNKNOWN | NORMAL | EXTENDED.
End phich_duration_t.

Module phich_resource_t.
Inductive t := UNKNOWN | oneSixth | half | one | two.
End phich_resource_t.

(** Modelled from the spec: the [Cell] class lives in [common.h].  The
    fields are those of the data model of the spec, in the order in
    which the pipeline fills them. *)
Record Cell := mkCell {
  fc_requested : Q;
  fc_programmed : Q;
  pss_pow : Q;
  ind : Z;
  freq : Q;
  n_id_2 : Z;
  n_id_1 : Z;
  cp_type : cp_type_t.t;
  duplex_mode : Z;
  frame_start : Q;
  freq_fine : Q;
  freq_superfine : Q;
  n_ports : Z;
  n_rb_dl : Z;
  phich_duration : phich_duration_t.t;
  phich_resource : phich_resource_t.t;
  sfn : Z
}.

(** Modelled from the spec: "Derived: n_id_cell = 3*n_id_1 + n_id_2". *)
Definition n_id_cell (c : Cell) : Z := n_id_2 c + 3 * n_id_1 c.

(** Modelled from the spec: "n_symb_dl = 7 (normal CP) or 6 (extended
    CP)"; any other [cp_type] is the fatal invariant violation of the
    error taxonomy, here [None]. *)
Definition n_symb_dl (c : Cell) : option Z :=
  match cp_type c with
  | cp_type_t.NORMAL => Some 7
  | cp_type_t.EXTENDED => Some 6
  | cp_type_t.UNKNOWN => None
  end.

(** Field updates, one per assignment [cell_out.f = v] of the source. *)
Definition set_n_ports (v : Z) (c : Cell) : Cell :=
  mkCell (fc_requested c) (fc_programmed c) (pss_pow c) (ind c) (freq c)
    (n_id_2 c) (n_id_1 c) (cp_type c) (duplex_mode c) (frame_start c)
    (freq_fine c) (freq_superfine c) v (n_rb_dl c) (phich_duration c)
    (phich_resource c) (sfn c).
Definition set_n_rb_dl (v : Z) (c : Cell) : Cell :=
  mkCell (fc_requested c) (fc_programmed c) (pss_pow c) (ind c) (freq c)
    (n_id_2 c) (n_id_1 c) (cp_type c) (duplex_mode c) (frame_start c)
    (freq_fine c) (freq_superfine c) (n_ports c) v (phich_duration c)
    (phich_resource c) (sfn c).
Definition set_phich_duration (v : phich_duration_t.t) (c : Cell) : Cell :=
  mkCell (fc_requested c) (fc_programmed c) (pss_pow c) (ind c) (freq c)
    (n_id_2 c) (n_id_1 c) (cp_type c) (duplex_mode c) (frame_start c)
    (freq_fine c) (freq_superfine c) (n_ports c) (n_rb_dl c) v
    (phich_resource c) (sfn c).
Definition set_phich_resource (v : phich_resource_t.t) (c : Cell) : Cell :=
  mkCell (fc_requested c) (fc_programmed c) (pss_pow c) (ind c) (freq c)
    (n_id_2 c) (n_id_1 c) (cp_type c) (duplex_mode c) (frame_start c)
    (freq_fine c) (freq_superfine c) (n_ports c) (n_rb_dl c)
    (phich_duration c) v (sfn c).
Definition set_sfn (v : Z) (c : Cell) : Cell :=
  mkCell (fc_requested c) (fc_programmed c) (pss_pow c) (ind c) (freq c)
    (n_id_2 c) (n_id_1 c) (cp_type c) (duplex_mode c) (frame_start c)
    (freq_fine c) (freq_superfine c) (n_ports c) (n_rb_dl c)
    (phich_duration c) (phich_resource c) v.

(** ** PBCH extraction: [pbch_extract] *)

Section PbchExtract.
  (** The type of complex samples; the extraction only moves them. *)
Context {C : Type}.

  (** A [cmat] read through [m(row,col)]. *)
Definition cmat := Z -> Z -> C.

  (** The state of the triple loop: the write cursor [idx] and the
      prefixes of [pbch_sym] and of the four rows of [pbch_ce] written
      so far. *)
Record pbch_state := mkPbch {
    pbch_idx : Z;
    pbch_sym : list C;
    pbch_ce : list (list C)
  }.

  (** The [continue] test: an RS may occupy this position. *)
Definition pbch_skip (v_shift_m3 n_symb_dl sym sc : Z) : bool :=
    Z.eqb (itpp_mod sc 3) v_shift_m3
    && (Z.eqb sym 0 || Z.eqb sym 1 || (Z.eqb sym 3 && Z.eqb n_symb_dl 6)).

  (** The body of the innermost loop. *)
Definition pbch_body (tfg : cmat) (ce : Z -> cmat)
      (v_shift_m3 n_symb_dl fr sym : Z) (st : pbch_state) (sc : Z)
      : pbch_state :=
    if pbch_skip v_shift_m3 n_symb_dl sym sc then st
    else
      let sym_num := wrap_uint16 (fr * 10 * 2 * n_symb_dl + n_symb_dl + sym) in
      mkPbch (pbch_idx st + 1)
             (pbch_sym st ++ [tfg sym_num sc])
             (zip_with (fun row p => row ++ [ce p sym_num sc])
                       (pbch_ce st) [0; 1; 2; 3]).

Definition pbch_loop (tfg : cmat) (ce : Z -> cmat)
      (v_shift_m3 n_symb_dl : Z) : pbch_state :=
    fold_left (fun st fr =>
      fold_left (fun st sym =>
        fold_left (pbch_body tfg ce v_shift_m3 n_symb_dl fr sym)
                  (zrange 0 72) st)
        (zrange 0 4) st)
      (zrange 0 4) (mkPbch 0 [] [[]; []; []; []]).

  (** [pbch_extract]: [None] when [n_symb_dl()] fails or when the final
      [ASSERT(idx==m_bit/2)] does. *)
Definition pbch_extract (cell : Cell) (tfg : cmat) (ce : Z -> cmat)
      : option (list C * list (list C)) :=
    match n_symb_dl cell with
    | None => None
    | Some nsd =>
      let m_bit :=
        match cp_type cell with cp_type_t.NORMAL => 1920 | _ => 1728 end in
      let v_shift_m3 := wrap_uint8 (itpp_mod (n_id_cell cell) 3) in
      let st := pbch_loop tfg ce v_shift_m3 nsd in
      if Z.eqb (pbch_idx st) (m_bit / 2)
      then Some (pbch_sym st, pbch_ce st)
      else None
    end.

  (** The resource elements that the loop visits and keeps, in order:
      the reference against which the extraction is checked. *)
Definition pbch_positions (v_shift_m3 n_symb_dl : Z) : list (Z * Z) :=
    flat_map (fun fr =>
      flat_map (fun sym =>
        flat_map (fun sc =>
          if pbch_skip v_shift_m3 n_symb_dl sym sc then []
          else [(fr * 20 * n_symb_dl + n_symb_dl + sym, sc)])
          (zrange 0 72))
        (zrange 0 4))
      (zrange 0 4).
End PbchExtract.

(** ** Blind MIB decoding: [decode_mib] *)

Section DecodeMib.
(** [lte_calc_crc(.,CRC16)] of the LTE library ([lte_lib.h]). *)
Variable lte_calc_crc16 : list bool -> list bool.

(** The receive chain in front of the CRC check, for one frame-timing
    guess and one port count: channel estimation, [pbch_extract],
    equalisation, [lte_demodulate], unscrambling with [lte_pn],
    [lte_conv_deratematch] and [lte_conv_decode].  Its result is the
    decoded block [c_est] (24 MIB bits followed by the 16 CRC bits). *)
Variable pbch_c_est : Cell -> Z -> Z -> list bool.

(** [to_ivec(c_est)(i)]. *)
Definition c_est_ivec (c_est : list bool) (i : nat) : Z :=
  Z.b2z (nth i c_est false).

(** [v(i1,i2)], and [v(i1,-1)] which runs to the end. *)
Definition bvec_mid (v : list bool) (i1 i2 : nat) : list bool :=
  firstn (i2 - i1 + 1) (skipn i1 v).
Definition bvec_from (v : list bool) (i1 : nat) : list bool := skipn i1 v.

(** The CRC mask of the port count: all sixteen bits are inverted for
    two ports, the bits of odd index for four. *)
Definition crc_mask (n_ports : Z) (crc_est : list bool) : list bool :=
  if Z.eqb n_ports 2 then map negb (firstn 16 crc_est) ++ skipn 16 crc_est
  else if Z.eqb n_ports 4
       then imap (fun t b => if Nat.odd t then negb b else b) crc_est
       else crc_est.

(** "Did we find it?" *)
Definition crc_check (cell : Cell) (g n_ports : Z) : bool :=
  let c_est := pbch_c_est cell g n_ports in
  let crc_est := crc_mask n_ports (lte_calc_crc16 (bvec_mid c_est 0 23)) in
  bool_decide (crc_est = bvec_from c_est 24).

Definition bw_packed (c_est : list bool) : Z :=
  wrap_uint8 (c_est_ivec c_est 0 * 4 + c_est_ivec c_est 1 * 2
              + c_est_ivec c_est 2).

Definition phich_res (c_est : list bool) : Z :=
  wrap_uint8 (c_est_ivec c_est 4 * 2 + c_est_ivec c_est 5).

(** [int8 sfn_temp=128*c_est_ivec(6)+...+c_est_ivec(13)]: the sum is
    formed in [int] and narrowed to a signed byte. *)
Definition sfn_temp (c_est : list bool) : Z :=
  wrap_int8 (128 * c_est_ivec c_est 6 + 64 * c_est_ivec c_est 7
             + 32 * c_est_ivec c_est 8 + 16 * c_est_ivec c_est 9
             + 8 * c_est_ivec c_est 10 + 4 * c_est_ivec c_est 11
             + 2 * c_est_ivec c_est 12 + c_est_ivec c_est 13).

(** The two [switch] statements: a value without a [case] leaves the
    field as it is. *)
Definition unpack_n_rb_dl (c_est : list bool) (cell_out : Cell) : Cell :=
  match bw_packed c_est with
  | 0 => set_n_rb_dl 6 cell_out
  | 1 => set_n_rb_dl 15 cell_out
  | 2 => set_n_rb_dl 25 cell_out
  | 3 => set_n_rb_dl 50 cell_out
  | 4 => set_n_rb_dl 75 cell_out
  | 5 => set_n_rb_dl 100 cell_out
  | _ => cell_out
  end.

Definition unpack_phich_resource (c_est : list bool) (cell_out : Cell) : Cell :=
  match phich_res c_est with
  | 0 => set_phich_resource phich_resource_t.oneSixth cell_out
  | 1 => set_phich_resource phich_resource_t.half cell_out
  | 2 => set_phich_resource phich_resource_t.one cell_out
  | 3 => set_phich_resource phich_resource_t.two cell_out
  | _ => cell_out
  end.

(** The block after "YES!": unpack the MIB into [cell_out]. *)
Definition mib_unpack (cell_out : Cell) (frame_timing_guess n_ports : Z)
    (c_est : list bool) : Cell :=
  let cell_out := set_n_ports n_ports cell_out in
  let cell_out := unpack_n_rb_dl c_est cell_out in
  let cell_out :=
    set_phich_duration
      (if Z.eqb (c_est_ivec c_est 3) 0 then phich_duration_t.NORMAL
       else phich_duration_t.EXTENDED) cell_out in
  let cell_out := unpack_phich_resource c_est cell_out in
  set_sfn (matlab_mod (sfn_temp c_est * 4 - frame_timing_guess) 1024) cell_out.

Definition n_ports_of_pre (n_ports_pre : Z) : Z :=
  if Z.eqb n_ports_pre 3 then 4 else n_ports_pre.

(** The inner loop over [n_ports_pre]; [Some] is the early [return]. *)
Fixpoint decode_mib_ports (cell cell_out : Cell) (frame_timing_guess : Z)
    (pres : list Z) : option Cell :=
  match pres with
  | [] => None
  | n_ports_pre :: pres' =>
    let n_ports := n_ports_of_pre n_ports_pre in
    if crc_check cell frame_timing_guess n_ports
    then Some (mib_unpack cell_out frame_timing_guess n_ports
                 (pbch_c_est cell frame_timing_guess n_ports))
    else decode_mib_ports cell cell_out frame_timing_guess pres'
  end.

(** The outer loop over [frame_timing_guess]. *)
Fixpoint decode_mib_guesses (cell cell_out : Cell) (guesses : list Z)
    : option Cell :=
  match guesses with
  | [] => None
  | g :: guesses' =>
    match decode_mib_ports cell cell_out g (zrange 1 3) with
    | Some c => Some c
    | None => decode_mib_guesses cell cell_out guesses'
    end
  end.

(** [decode_mib]; [None] is the exception of [cell.n_symb_dl()]. *)
Definition decode_mib (cell : Cell) : option Cell :=
  match n_symb_dl cell with
  | None => None
  | Some _ =>
    let cell_out := cell in
    match decode_mib_guesses cell cell_out (zrange 0 4) with
    | Some c => Some c
    | None => Some cell_out
    end
  end.

(** The hypotheses in the order in which the loops try them, and the
    first one whose CRC matches. *)
Definition mib_hypotheses : list (Z * Z) :=
  flat_map (fun g => map (fun pre => (g, n_ports_of_pre pre)) (zrange 1 3))
           (zrange 0 4).

Definition first_pass (cell : Cell) : option (Z * Z) :=
  List.find (fun h => crc_check cell (fst h) (snd h)) mib_hypotheses.
End DecodeMib.

(** The unsigned number written by a list of bits, most significant
    first. *)
Definition bits_to_unsigned (bits : list bool) : Z :=
  fold_left (fun acc b => 2 * acc + Z.b2z b) bits 0.

(** "8-bit SFN-high": the unsigned byte in MIB bits 6..13. *)
Definition sfn_high (c_est : list bool) : Z :=
  bits_to_unsigned (map (fun i => nth i c_est false) (seq 6 8)).

(** ** Concrete inputs used by the examples *)

(** A cell as the PSS and SSS stages leave it: normal cyclic prefix,
    FDD, identity (25, 1), MIB fields not yet decoded. *)
Definition example_cell : Cell :=
  mkCell 739000000 739000000 100 1000 0 1 25 cp_type_t.NORMAL 0 0 0 0
         (-1) (-1) phich_duration_t.UNKNOWN phich_resource_t.UNKNOWN (-1).

(** A decoded block of 40 bits whose bandwidth field is [110] (6), whose
    SFN byte is [10000001] (129) and whose 16 CRC bits are zero. *)
Definition example_c_est : list bool :=
  [true; true; false; false; false; true;
   true; false; false; false; false; false; false; true]
  ++ repeat false 26.

(** A stand-in CRC that is zero on every block, so that
    [example_c_est] passes the one-port check. *)
Definition example_crc (_ : list bool) : list bool := repeat false 16.

Definition example_chain (_ : Cell) (_ _ : Z) : list bool := example_c_est.

(** ** Peak search: [peak_search] *)

(** [x < y] on doubles. *)
Definition Qltb (x y : Q) : bool := negb (Qle_bool y x).

(** IT++ [max(v, index)]: the maximum and the index of its first
    occurrence (the scan replaces the running maximum only by a strictly
    larger element). *)
Fixpoint vec_max_from (best : Q) (best_i i : Z) (v : list Q) : Q * Z :=
  match v with
  | [] => (best, best_i)
  | x :: v' =>
    if Qltb best x then vec_max_from x i (i + 1) v'
    else vec_max_from best best_i (i + 1) v'
  end.

Definition vec_max (v : list Q) : Q * Z :=
  match v with
  | [] => (0%Q, 0)
  | x :: v' => vec_max_from x 0 1 v'
  end.

(** A [mat] is the list of its rows. *)
Abbreviation mat := (list (list Q)).

Definition vec_get (v : list Q) (i : Z) : Q := nth (Z.to_nat i) v 0%Q.

Definition mat_get (m : mat) (r c : Z) : Q :=
  nth (Z.to_nat c) (nth (Z.to_nat r) m []) 0%Q.

(** [m(r,c)=x]. *)
Definition mat_set (m : mat) (r c : Z) (x : Q) : mat :=
  alter (fun row => <[Z.to_nat c := x]> row) (Z.to_nat r) m.

Definition imat_get (m : list (list Z)) (r c : Z) : Z :=
  nth (Z.to_nat c) (nth (Z.to_nat r) m []) 0.

(** A [vf3d] is a vector of vectors of vectors of [float]. *)
Abbreviation vf3d := (list (list (list Q))).

Definition vf3d_get (x : vf3d) (a b c : Z) : Q :=
  nth (Z.to_nat c) (nth (Z.to_nat b) (nth (Z.to_nat a) x []) []) 0%Q.

Section PeakSearch.
(** [udb10] is a macro of [macros.h]; the search uses [udb10(-8.0)] and
    [udb10(-12.0)]. *)
Variable udb10 : Q -> Q.

(** The default-constructed [Cell] ([Cell cell;]); the constructor is
    in [common.cpp]. *)
Variable Cell_default : Cell.

Variable xc_incoherent_collapsed_frq : list (list Z).
Variable Z_th1 : list Q.
Variable f_search_set : list Q.
Variable fc_requested_in : Q.
Variable fc_programmed_in : Q.
Variable xc_incoherent_single : vf3d.
Variable ds_comb_arm : Z.

(** The search for the largest peak: [peak_pow], [peak_n_id_2] and
    [peak_ind] of one pass. *)
Definition find_peak (xc_incoherent_working : mat) : Q * Z * Z :=
  let peak_pow_v := map (fun row => fst (vec_max row)) xc_incoherent_working in
  let peak_ind_v := map (fun row => snd (vec_max row)) xc_incoherent_working in
  let '(peak_pow, peak_n_id_2) := vec_max peak_pow_v in
  let peak_ind := nth (Z.to_nat peak_n_id_2) peak_ind_v 0 in
  (peak_pow, peak_n_id_2, peak_ind).

(** The values taken by the [uint16] counter [t] of the refinement
    loop: it starts at [peak_ind-ds_comb_arm] narrowed to 16 bits and
    runs while [t<=peak_ind+ds_comb_arm]. *)
Definition refine_range (peak_ind : Z) : list Z :=
  let t0 := wrap_uint16 (peak_ind - ds_comb_arm) in
  zrange t0 (Z.to_nat (peak_ind + ds_comb_arm - t0 + 1)).

(** The refinement loop; [best_pow] starts at minus infinity, which is
    [None] here. *)
Definition refine_peak (peak_n_id_2 peak_ind : Z) : option Q * Z :=
  let foi := imat_get xc_incoherent_collapsed_frq peak_n_id_2 peak_ind in
  fold_left (fun (best : option Q * Z) t =>
      let t_wrap := wrap_uint16 (itpp_mod t 9600) in
      let x := vf3d_get xc_incoherent_single peak_n_id_2 t_wrap foi in
      match fst best with
      | None => (Some x, t_wrap)
      | Some best_pow => if Qltb best_pow x then (Some x, t_wrap) else best
      end)
    (refine_range peak_ind) (None, -1).

(** "Record this peak for further processing". *)
Definition make_cell (peak_pow : Q) (peak_n_id_2 peak_ind : Z) : Cell :=
  let best_ind := snd (refine_peak peak_n_id_2 peak_ind) in
  let c := Cell_default in
  mkCell fc_requested_in fc_programmed_in peak_pow best_ind
    (vec_get f_search_set
       (imat_get xc_incoherent_collapsed_frq peak_n_id_2 peak_ind))
    peak_n_id_2 (n_id_1 c) (cp_type c) (duplex_mode c) (frame_start c)
    (freq_fine c) (freq_superfine c) (n_ports c) (n_rb_dl c)
    (phich_duration c) (phich_resource c) (sfn c).

(** "No peaks with the same pss sequence are allowed within 274 samples
    of this one." *)
Definition blank_same (w : mat) (peak_n_id_2 peak_ind : Z) : mat :=
  fold_left (fun w t => mat_set w peak_n_id_2 (matlab_mod (peak_ind + t) 9600) 0%Q)
            (zrange (-274) 549) w.

(** "Cancel out other PSS sequences whose power is within 8dB of the
    current sequence."  The loop runs [n] over 0..3 and skips
    [n==peak_n_id_2]; its body reads and writes row [peak_n_id_2]. *)
Definition blank_other (w : mat) (thresh : Q) (peak_n_id_2 peak_ind : Z) : mat :=
  fold_left (fun w n =>
      if Z.eqb n peak_n_id_2 then w
      else
        fold_left (fun w t =>
            let c := matlab_mod (peak_ind + t) 9600 in
            if Qltb (mat_get w peak_n_id_2 c) thresh
            then mat_set w peak_n_id_2 c 0%Q else w)
          (zrange (-274) 549) w)
    (zrange 0 4) w.

(** The last pass: every entry below [peak_pow*udb10(-12.0)] is
    cleared. *)
Definition blank_weak (w : mat) (thresh : Q) : mat :=
  fold_left (fun w r =>
      fold_left (fun w c =>
          if Qltb (mat_get w r c) thresh then mat_set w r c 0%Q else w)
        (zrange 0 (Z.to_nat 9600)) w)
    (zrange 0 3) w.

(** One pass of the [for (;;)] loop: [None] is the [break], otherwise
    the cell pushed and the working matrix after the three blanking
    steps. *)
Definition peak_iter (xc_incoherent_working : mat) : option (Cell * mat) :=
  let '(peak_pow, peak_n_id_2, peak_ind) := find_peak xc_incoherent_working in
  if Qltb peak_pow (vec_get Z_th1 peak_ind) then None
  else
    let cell := make_cell peak_pow peak_n_id_2 peak_ind in
    let w := blank_same xc_incoherent_working peak_n_id_2 peak_ind in
    let w := blank_other w (peak_pow * udb10 (-8))%Q peak_n_id_2 peak_ind in
    let w := blank_weak w (peak_pow * udb10 (-12))%Q in
    Some (cell, w).

(** The loop, with a bound on the number of passes; [None] means that
    the bound was reached before the [break]. *)
Fixpoint peak_loop (fuel : nat) (w : mat) (cells : list Cell)
    : option (list Cell) :=
  match fuel with
  | O => None
  | S fuel' =>
    match peak_iter w with
    | None => Some cells
    | Some (cell, w') => peak_loop fuel' w' (cells ++ [cell])
    end
  end.

(** [peak_search]: the working copy is the collapsed power matrix. *)
Definition peak_search (fuel : nat) (xc_incoherent_collapsed_pow : mat)
    (cells : list Cell) : option (list Cell) :=
  peak_loop fuel xc_incoherent_collapsed_pow cells.

(** The working matrix after [n] passes that did not break. *)
Fixpoint peak_working (n : nat) (w : mat) : option mat :=
  match n with
  | O => Some w
  | S n' =>
    match peak_iter w with
    | None => None
    | Some (_, w') => peak_working n' w'
    end
  end.

(** The cells pushed by the first [n] passes (fewer when the loop
    breaks earlier). *)
Fixpoint peak_emitted (n : nat) (w : mat) : list Cell :=
  match n with
  | O => []
  | S n' =>
    match peak_iter w with
    | None => []
    | Some (cell, w') => cell :: peak_emitted n' w'
    end
  end.

(** What one pass does to the working matrix, entry by entry: in row
    [peak_n_id_2] the 549 samples around [peak_ind] (circularly) are
    cleared; everywhere, an entry below [peak_pow*udb10(-12.0)] is
    cleared; nothing else changes.  The three blanking loops are
    proved below to compute exactly this. *)
Definition in_window (peak_ind c : Z) : bool :=
  Z.leb ((c - peak_ind + 274) mod 9600) 548.

Definition blank_entry (peak_pow : Q) (peak_n_id_2 peak_ind r c : Z) (x : Q) : Q :=
  if Z.eqb r peak_n_id_2 && in_window peak_ind c then 0%Q
  else if Qltb x (peak_pow * udb10 (-12))%Q then 0%Q else x.

Definition blank_all (peak_pow : Q) (peak_n_id_2 peak_ind : Z) (w : mat) : mat :=
  imap (fun r row =>
          imap (fun c x =>
                  blank_entry peak_pow peak_n_id_2 peak_ind
                              (Z.of_nat r) (Z.of_nat c) x) row) w.
End PeakSearch.

(** The step "if [w(r,c) < th] then [w(r,c)=0]" as a row step. *)
Definition clear_below (th : Q) (i : nat) (row : list Q) : list Q :=
  if Qltb (nth i row 0%Q) th then <[i := 0%Q]> row else row.

(** The entry-wise effect of the last blanking pass. *)
Definition clear_weak (th : Q) (x : Q) : Q := if Qltb x th then 0%Q else x.

(** One pass and the loop written with [blank_all] in place of the
    three blanking loops; [peak_loop_blank_all] proves that they agree
    with [peak_iter] and [peak_loop] on matrices of the right shape. *)
Definition peak_iter_ref (udb10 : Q -> Q) (Cell_default : Cell)
    (frq : list (list Z)) (Z_th1 f_search_set : list Q) (fc_req fc_prog : Q)
    (single : vf3d) (ds_comb_arm : Z) (w : mat) : option (Cell * mat) :=
  let '(peak_pow, peak_n_id_2, peak_ind) := find_peak w in
  if Qltb peak_pow (vec_get Z_th1 peak_ind) then None
  else Some (make_cell Cell_default frq f_search_set fc_req fc_prog single
               ds_comb_arm peak_pow peak_n_id_2 peak_ind,
             blank_all udb10 peak_pow peak_n_id_2 peak_ind w).

Fixpoint peak_loop_ref (udb10 : Q -> Q) (Cell_default : Cell)
    (frq : list (list Z)) (Z_th1 f_search_set : list Q) (fc_req fc_prog : Q)
    (single : vf3d) (ds_comb_arm : Z) (fuel : nat) (w : mat)
    (cells : list Cell) : option (list Cell) :=
  match fuel with
  | O => None
  | S fuel' =>
    match peak_iter_ref udb10 Cell_default frq Z_th1 f_search_set fc_req
            fc_prog single ds_comb_arm w with
    | None => Some cells
    | Some (cell, w') =>
      peak_loop_ref udb10 Cell_default frq Z_th1 f_search_set fc_req fc_prog
        single ds_comb_arm fuel' w' (cells ++ [cell])
    end
  end.

(** "Each cell pushed has power at least that of every cell pushed
    after it." *)
Definition pss_pow_ge (a b : Cell) : Prop := (pss_pow b <= pss_pow a)%Q.

(** The shape of the collapsed power matrix: 3 rows of 9600 samples. *)
Definition mat_shape (w : mat) : Prop :=
  length w = 3%nat /\ Forall (fun row => length row = Z.to_nat 9600) w.

(** The number of strictly positive entries of a row and of a matrix. *)
Definition count_pos (row : list Q) : nat :=
  length (List.filter (fun x => Qltb 0 x) row).

Definition npos (w : mat) : nat :=
  fold_right (fun row n => (count_pos row + n)%nat) 0%nat w.

(** Modelled from the spec: [udb10(x)] is the power ratio of [x] dB,
    [10^(x/10)] ("within 8 dB", "below peak - 12 dB").  The two values
    the search uses are given to 17 significant digits; any other
    argument is not used by the code under study. *)
Definition udb10_model (x : Q) : Q :=
  if Qeq_bool x (-8) then 0.15848931924611134%Q
  else if Qeq_bool x (-12) then 0.063095734448019325%Q
  else 1%Q.

(** Matrices of the shape [xc_peak_freq] produces, 3 rows of 9600. *)
Definition zero_row : list Q := repeat 0%Q (Z.to_nat 9600).
Definition zero_mat : mat := [zero_row; zero_row; zero_row].

(** Thresholds: all zero, and all one. *)
Definition zero_th : list Q := repeat 0%Q (Z.to_nat 9600).
Definition one_th : list Q := repeat 1%Q (Z.to_nat 9600).

(** Two equal peaks of power 100 for PSS 0, at samples 0 and 5000. *)
Definition tie_mat : mat :=
  mat_set (mat_set zero_mat 0 0 100%Q) 0 5000 100%Q.

(** A peak of power 100 for PSS 0 at sample 1000 and, at the same
    sample, a peer of power 50 (3 dB below) for PSS 1. *)
Definition peer_mat : mat :=
  mat_set (mat_set zero_mat 0 1000 100%Q) 1 1000 50%Q.

Definition zero_frq : list (list Z) :=
  repeat (repeat 0 (Z.to_nat 9600)) 3.
Definition one_single : vf3d :=
  repeat (repeat [1%Q] (Z.to_nat 9600)) 3.

(** ** Orders and checks used to state properties of [pbch_extract] *)

(** Resource element [a] comes before [b]: earlier OFDM symbol, or the
    same symbol and a lower subcarrier. *)
Definition re_before (a b : Z * Z) : Prop :=
  fst a < fst b \/ (fst a = fst b /\ snd a < snd b).

Definition re_beforeb (a b : Z * Z) : bool :=
  Z.ltb (fst a) (fst b) || (Z.eqb (fst a) (fst b) && Z.ltb (snd a) (snd b)).

(** Every element and its successor are in order. *)
Fixpoint chainb (l : list (Z * Z)) : bool :=
  match l with
  | a :: ((b :: _) as l') => re_beforeb a b && chainb l'
  | _ => true
  end.

(** A position lies in the four-frame grid that [decode_mib] hands to
    [pbch_extract] ([3*10*2*n_symb_dl+2*n_symb_dl] rows of 72
    subcarriers) and in the first four symbols of the second slot of
    its frame. *)
Definition re_in_pbch (nsd : Z) (p : Z * Z) : bool :=
  Z.leb 0 (fst p) && Z.ltb (fst p) (3 * 10 * 2 * nsd + 2 * nsd)
  && Z.leb 0 (snd p) && Z.ltb (snd p) 72
  && Z.leb nsd (fst p mod (10 * 2 * nsd))
  && Z.ltb (fst p mod (10 * 2 * nsd)) (nsd + 4).

(** ** Best-frequency collapse: [xc_peak_freq] *)



(** ** Channel-estimate filtering: [del_oob] and the stencil of [chan_est] *)

(** [del_oob]: the [while] loop over the cursor [t]; [v.del(t)] removes
    the element at index [t].  [None] means that the bound on the
    number of passes was reached. *)
Fixpoint del_oob_loop (fuel : nat) (t : Z) (v : list Z) : option (list Z) :=
  match fuel with
  | O => None
  | S fuel' =>
    if Z.ltb t (Z.of_nat (length v)) then
      let x := nth (Z.to_nat t) v 0 in
      if Z.ltb x 0 || Z.gtb x 11
      then del_oob_loop fuel' t (delete (Z.to_nat t) v)
      else del_oob_loop fuel' (t + 1) v
    else Some v
  end.

Definition del_oob (fuel : nat) (v : list Z) : option (list Z) :=
  del_oob_loop fuel 0 v.

(** An index of one of the 12 raw estimates of an OFDM symbol. *)
Definition in_bounds (x : Z) : bool := Z.leb 0 x && Z.leb x 11.

(** Modelled from the spec: [itpp_ext::matlab_range(a,b)] is declared in
    [itpp_ext.h]; it is MATLAB's [a:b], the integers from [a] to [b]
    (the spec's "own neighbors +/-1 in subcarrier" for
    [matlab_range(k-1,k+1)]). *)
Definition matlab_range (a b : Z) : list Z := zrange a (Z.to_nat (b - a + 1)).

(** The number [n_total] of raw estimates that the filter of [chan_est]
    averages for RS symbol [t] (of [n_rs_ofdm]) and estimate [k]: the
    in-range neighbours in the symbol itself, plus those of the
    previous and of the next RS symbol when they exist.  [shift0] and
    [shift1] are [shift(0)] and [shift(1)]. *)
Definition ce_filt_n_total (shift0 shift1 : Z) (current_row_leftmost : bool)
    (t n_rs_ofdm k : Z) : option Z :=
  match del_oob 4 (matlab_range (k - 1) (k + 1)) with
  | None => None
  | Some ind =>
    let n_total := wrap_uint8 (Z.of_nat (length ind)) in
    let ind :=
      if Z.eqb shift0 shift1 then matlab_range (k - 1) (k + 1)
      else if current_row_leftmost then matlab_range (k - 1) k
           else matlab_range k (k + 1) in
    match del_oob 4 ind with
    | None => None
    | Some ind =>
      let n_total :=
        if negb (Z.eqb t 0)
        then wrap_uint8 (n_total + Z.of_nat (length ind)) else n_total in
      let n_total :=
        if negb (Z.eqb t (n_rs_ofdm - 1))
        then wrap_uint8 (n_total + Z.of_nat (length ind)) else n_total in
      Some n_total
    end
  end.

(** ** Signal-power estimate: [sp_est] *)

(** A complex sample: real and imaginary part. *)
Record cplx := mkC { creal : Q; cimag : Q }.

Definition cvec_get (v : list cplx) (i : Z) : cplx :=
  nth (Z.to_nat i) v (mkC 0 0).

(** [pow(x.real(),2)+pow(x.imag(),2)]. *)
Definition pow2 (x : cplx) : Q :=
  (creal x * creal x + cimag x * cimag x)%Q.

Definition wrap_uint32 (z : Z) : Z := z mod 4294967296.

(** [n_comb_sp=floor_i((n_cap-136-137)/9600)]: the subtraction and the
    division are done in [uint32], the result is stored in a
    [uint16]. *)
Definition n_comb_sp (n_cap : Z) : Z :=
  wrap_uint16 (wrap_uint32 (n_cap - 136 - 137) / 9600).

(** [sp[t]]: the first entry is the mean of the first 274 powers, each
    further entry is obtained from the previous one by dropping the
    oldest power and adding the newest. *)
Fixpoint sp_at (capbuf : list cplx) (t : nat) : Q :=
  match t with
  | O =>
    (fold_left (fun acc t => acc + pow2 (cvec_get capbuf t))
               (zrange 0 274) 0 / 274)%Q
  | S t' =>
    (sp_at capbuf t'
     + (- (creal (cvec_get capbuf (Z.of_nat t')) * creal (cvec_get capbuf (Z.of_nat t')))
        - cimag (cvec_get capbuf (Z.of_nat t')) * cimag (cvec_get capbuf (Z.of_nat t'))
        + creal (cvec_get capbuf (Z.of_nat t' + 274))
          * creal (cvec_get capbuf (Z.of_nat t' + 274))
        + cimag (cvec_get capbuf (Z.of_nat t' + 274))
          * cimag (cvec_get capbuf (Z.of_nat t' + 274))) / 274)%Q
  end.

(** The vector [sp] of length [n_sp=n_comb_sp*9600]. *)
Definition sp_vec (capbuf : list cplx) : list Q :=
  map (sp_at capbuf)
      (seq 0 (Z.to_nat (wrap_uint32
                          (n_comb_sp (Z.of_nat (length capbuf)) * 9600)))).

(** The sum of the 274 powers starting at sample [t]. *)
Definition window_power (capbuf : list cplx) (t : Z) : Q :=
  fold_left (fun acc i => acc + pow2 (cvec_get capbuf (t + i)))%Q
            (zrange 0 274) 0%Q.

(** ** Correlation and combining: [xc_correlate], [xc_combine],
       [xc_delay_spread], [xcorr_pss] *)

Definition Cadd (a b : cplx) : cplx :=
  mkC (creal a + creal b) (cimag a + cimag b).

Definition Cmul (a b : cplx) : cplx :=
  mkC (creal a * creal b - cimag a * cimag b)
      (creal a * cimag b + cimag a * creal b).

(** A [vcf3d] is a vector of vectors of vectors of complex [float]. *)
Definition vcf3d_get (x : list (list (list cplx))) (a b c : Z) : cplx :=
  nth (Z.to_nat c) (nth (Z.to_nat b) (nth (Z.to_nat a) x []) []) (mkC 0 0).

Definition wrap_uint64 (z : Z) : Z := z mod 18446744073709551616.

(** [n_comb_xc=floor_i((xc[0].size()-100)/9600)]: [size_t] arithmetic
    stored in a [uint16]. *)
Definition n_comb_xc_of (size : Z) : Z :=
  wrap_uint16 (wrap_uint64 (size - 100) / 9600).

(** [k_factor] as the loops over [foi] see it: recomputed from the
    frequency offset when the sampling clock is tied to the carrier. *)
Definition k_factor_at (sampling_carrier_twist : bool)
    (fc_requested fc_programmed k_factor f_off : Q) : Q :=
  if sampling_carrier_twist then ((fc_requested - f_off) / fc_programmed)%Q
  else k_factor.

Section XcorrPss.
(** The conjugated, frequency-shifted, scaled PSS for frequency index
    [foi] and PSS [t] ([temp] in [xc_correlate]); [fshift] and the ROM
    tables are in other files. *)
Variable pss_template : Z -> Z -> list cplx.

(** [itpp::round_i]. *)
Variable round_i : Q -> Z.

(** [xc_correlate]: [xc[t][k][foi]] for [t<3], [k<n_cap-136],
    [foi<n_f]. *)
Definition xc_correlate (capbuf : list cplx) (f_search_set : list Q)
    : list (list (list cplx)) :=
  let n_cap := wrap_uint32 (Z.of_nat (length capbuf)) in
  let n_f := wrap_uint16 (Z.of_nat (length f_search_set)) in
  map (fun t =>
    map (fun k =>
      map (fun foi =>
        fold_left (fun acc m =>
            Cadd acc (Cmul (cvec_get (pss_template foi t) m)
                           (cvec_get capbuf (k + m))))
          (zrange 0 137) (mkC 0 0))
        (zrange 0 (Z.to_nat n_f)))
      (zrange 0 (Z.to_nat (wrap_uint32 (n_cap - 136)))))
    (zrange 0 3).

(** The first sample of block [m] for frequency index [foi]:
    [round_i(m*.005*k_factor*fs_programmed)]. *)
Definition actual_start_index (fc_requested fc_programmed fs_programmed : Q)
    (f_search_set : list Q) (twist : bool) (k_factor : Q) (foi m : Z) : Z :=
  let f_off := vec_get f_search_set foi in
  let k := k_factor_at twist fc_requested fc_programmed k_factor f_off in
  round_i (inject_Z m * 0.005 * k * fs_programmed)%Q.

(** [xc_combine]: [xc_incoherent_single] and [n_comb_xc].  Each entry
    is accumulated over the blocks [m] in increasing order and then
    divided by [n_comb_xc]. *)
Definition xc_combine (xc : list (list (list cplx)))
    (fc_requested fc_programmed fs_programmed : Q) (f_search_set : list Q)
    (twist : bool) (k_factor : Q) : vf3d * Z :=
  let n_f := wrap_uint16 (Z.of_nat (length f_search_set)) in
  let n_comb_xc := n_comb_xc_of (Z.of_nat (length (nth 0 xc []))) in
  (map (fun t =>
     map (fun idx =>
       map (fun foi =>
         (fold_left (fun acc m =>
              acc + pow2 (vcf3d_get xc t
                            (idx + actual_start_index fc_requested
                                     fc_programmed fs_programmed f_search_set
                                     twist k_factor foi m) foi))
            (zrange 0 (Z.to_nat n_comb_xc)) 0
          / inject_Z n_comb_xc)%Q)
         (zrange 0 (Z.to_nat n_f)))
       (zrange 0 (Z.to_nat 9600)))
     (zrange 0 3),
   n_comb_xc).


End XcorrPss.

(** ** SSS detection: the decision part of [sss_detect] *)











Section SssDetect.
(** [pow(lik_var,0.5)] for the vector [L]: IT++'s [variance] and the
    square root. *)
Variable std_dev : list Q -> Q.

(** The value assigned to [frame_start]: computed from [cell.ind], the
    duplex mode, the cyclic-prefix decision ([true] for extended) and
    the column decision ([true] for the second column) with [FS_LTE]
    and [WRAP], which other files define. *)
Variable frame_start_est : Cell -> Z -> bool -> bool -> Q.

End SssDetect.

(** ** [display_thread]: the coherence bandwidth shown for a port *)

Section CoherenceBandwidth.
(** [abs(tracked_cell.ac_fd(k))]. *)
Variable ac_abs : Z -> Q.

(** The loop over [k] with its [break]; [CB] is an [int8] that starts
    at -1. *)
Fixpoint cb_scan (ks : list Z) : Z :=
  match ks with
  | [] => -1
  | k :: ks' =>
    if Qle_bool (ac_abs k) (ac_abs 0 / 2) then wrap_int8 k else cb_scan ks'
  end.

Definition CB : Z := cb_scan (zrange 1 11).

(** What is printed: [None] for " >990 kHz", [Some v] for "v kHz". *)
Definition cb_shown : option Z :=
  if Z.eqb CB (-1) then None else Some (CB * 90).
End CoherenceBandwidth.

(** ** FIR filtering: [filter_my] *)

(** A real coefficient times a complex sample. *)
Definition Cscale (c : Q) (x : cplx) : cplx :=
  mkC (c * creal x) (c * cimag x).

(** [acc] after the inner loop over the taps [js] for position [i]. *)
Definition fir_acc (coef : list Q) (capbuf : list cplx) (i : Z)
    (js : list Z) : cplx :=
  fold_left (fun acc j =>
      Cadd acc (Cscale (vec_get coef j) (cvec_get capbuf (i - j))))
    js (mkC 0 0).

(** [filter_my]: the three loops write [tmpbuf[i-len_half]] for the
    head ([len_half <= i < len_fir], taps [0..i]), the body
    ([len_fir <= i < len], all taps) and the tail
    ([len <= i < len+len_half], taps [i-len+1..len_fir-1]). *)
Definition filter_my (coef : list Q) (capbuf : list cplx) : list cplx :=
  let len := wrap_uint32 (Z.of_nat (length capbuf)) in
  let len_fir := wrap_uint16 (Z.of_nat (length coef)) in
  let len_half := wrap_uint16 (Z.quot (len_fir - 1) 2) in
  let tmpbuf := repeat (mkC 0 0) (Z.to_nat len) in
  let tmpbuf :=
    fold_left (fun tmp i =>
        <[Z.to_nat (i - len_half) :=
            fir_acc coef capbuf i (zrange 0 (Z.to_nat (i + 1)))]> tmp)
      (zrange len_half (Z.to_nat (len_fir - len_half))) tmpbuf in
  let tmpbuf :=
    fold_left (fun tmp i =>
        <[Z.to_nat (i - len_half) :=
            fir_acc coef capbuf i (zrange 0 (Z.to_nat len_fir))]> tmp)
      (zrange len_fir (Z.to_nat (len - len_fir))) tmpbuf in
  fold_left (fun tmp i =>
      <[Z.to_nat (i - len_half) :=
          fir_acc coef capbuf i
            (zrange (i - len + 1) (Z.to_nat (len_fir - (i - len + 1))))]> tmp)
    (zrange len (Z.to_nat len_half)) tmpbuf.

(** The sample at [k], and zero outside the buffer. *)
Definition cvec_pad (v : list cplx) (k : Z) : cplx :=
  if Z.leb 0 k && Z.ltb k (Z.of_nat (length v)) then cvec_get v k
  else mkC 0 0.

(** The convolution of all the taps with the zero-padded buffer, read
    at position [i]. *)
Definition fir_pad (coef : list Q) (capbuf : list cplx) (i : Z) : cplx :=
  fold_left (fun acc j =>
      Cadd acc (Cscale (vec_get coef j) (cvec_pad capbuf (i - j))))
    (zrange 0 (length coef)) (mkC 0 0).

(** ** SSS extraction: the windows read by [sss_detect_getce_sss] *)

Definition sss_min_idx (tdd_flag : Z) : Z :=
  if Z.eqb tdd_flag 1 then 3 * (128 + 32) + 32 else 163 - 9.

Definition sss_ext_offset (tdd_flag : Z) : Z :=
  if Z.eqb tdd_flag 1 then 3 * (128 + 32) else 128 + 32.

Definition sss_nrm_offset (tdd_flag : Z) : Z :=
  if Z.eqb tdd_flag 1 then 412 else 128 + 9.

(** Modelled from the spec: [itpp_ext::matlab_range(first,incr,last)] is
    declared in [itpp_ext.h]; it is MATLAB's [first:incr:last], the
    values [first+t*incr] that do not exceed [last] (the spec's "all PSS
    positions in the capture buffer (step 9600*k_factor)"). *)
Definition matlab_range_step (first incr last : Q) : list Q :=
  map (fun t => (first + inject_Z t * incr)%Q)
      (zrange 0 (Z.to_nat (Qfloor ((last - first) / incr) + 1))).

(** The three 128-sample windows [capbuf.mid(.,128)] read for one PSS
    location, by their first sample. *)
Record sss_reads := mkReads {
  pss_dft_location : Z;
  sss_ext_location : Z;
  sss_nrm_location : Z
}.

Section SssWindows.
(** [itpp::round_i]. *)
Variable round_i : Q -> Z.

(** [peak_loc] after "Skip to the right by 5 subframes if there is no
    room here to detect the SSS". *)
Definition sss_peak_loc (cell : Cell) (k_factor : Q) (tdd_flag : Z) : Q :=
  let peak_loc := inject_Z (ind cell) in
  if Qltb peak_loc (inject_Z (sss_min_idx tdd_flag))
  then (peak_loc + 9600 * k_factor)%Q else peak_loc.

(** [pss_loc_set] for a capture buffer of [n_cap] samples. *)
Definition pss_loc_set (cell : Cell) (n_cap : Z) (k_factor : Q)
    (tdd_flag : Z) : list Q :=
  matlab_range_step (sss_peak_loc cell k_factor tdd_flag)
    (k_factor * 9600) (inject_Z n_cap - 125 - 9).

(** The windows read by the loop over [k]. *)
Definition sss_getce_reads (cell : Cell) (n_cap : Z) (k_factor : Q)
    (tdd_flag : Z) : list sss_reads :=
  map (fun x =>
         let pss_loc := wrap_uint32 (round_i x) in
         let pss_dft_location := wrap_uint32 (pss_loc + 9 - 2) in
         mkReads pss_dft_location
           (wrap_uint32 (pss_dft_location - sss_ext_offset tdd_flag))
           (wrap_uint32 (pss_dft_location - sss_nrm_offset tdd_flag)))
      (pss_loc_set cell n_cap k_factor tdd_flag).
End SssWindows.

(** A window of 128 samples starting at [start] lies inside a buffer of
    [n_cap] samples. *)
Definition window_inside (n_cap start : Z) : Prop :=
  0 <= start /\ start + 128 <= n_cap.

(** ** Channel-estimate interpolation: the grid expansion of
       [ce_interp_2stage] *)

(** The entries [(row, column)] of [ce_filt] that are summed for the
    missing sample [(t,k)] of the expanded grid, in the order of the
    four tests: up one, down one, left, right. *)
Definition ce_exp_reads (t n_rs_ofdm k : Z) : list (Z * Z) :=
  (if Z.leb 0 (t - 1) then [(t - 1, Z.shiftr k 1)] else [])
  ++ (if Z.ltb (t + 1) n_rs_ofdm then [(t + 1, Z.shiftr k 1)] else [])
  ++ (if Z.leb 0 (Z.shiftr (k - 1) 1)
      then [(t, Z.shiftr (k - 1) 1)] else [])
  ++ (if Z.ltb (Z.shiftr (k + 1) 1) 12
      then [(t, Z.shiftr (k + 1) 1)] else []).

(** [n_total], a [uint8] incremented once per entry. *)
Definition ce_exp_n_total (t n_rs_ofdm k : Z) : Z :=
  wrap_uint8 (Z.of_nat (length (ce_exp_reads t n_rs_ofdm k))).

(** ** The pair counter of [xc_delay_spread] *)

(** [for (uint8 t=1;t<=ds_comb_arm;t++)]: the values of [t] for which
    the body runs.  [None] means that the bound on the number of tests
    was reached. *)
Fixpoint ds_counter (fuel : nat) (t ds_comb_arm : Z) : option (list Z) :=
  match fuel with
  | O => None
  | S fuel' =>
    if Z.leb t ds_comb_arm
    then option_map (cons t) (ds_counter fuel' (wrap_uint8 (t + 1)) ds_comb_arm)
    else Some []
  end.

(* ===================================================================== *)
(** * Properties *)
(* ===================================================================== *)

(** ** Auxiliary facts on the integer helpers *)

Lemma itpp_mod_3 (k : Z) : itpp_mod k 3 = k mod 3.
Proof.
  unfold itpp_mod. simpl. pose proof (Z_div_mod_eq_full k 3). lia.
Qed.

Lemma wrap_uint8_small (z : Z) : 0 <= z < 256 -> wrap_uint8 z = z.
Proof. intros H. unfold wrap_uint8. apply Z.mod_small. exact H. Qed.

Lemma wrap_int8_times4_mod (x g : Z) :
  (wrap_int8 x * 4 - g) mod 1024 = (x * 4 - g) mod 1024.
Proof.
  unfold wrap_int8.
  pose proof (Z_div_mod_eq_full (x + 128) 256) as Hq.
  replace (((x + 128) mod 256 - 128) * 4 - g)
    with ((x * 4 - g) + (- ((x + 128) / 256)) * 1024) by lia.
  apply Z_mod_plus_full.
Qed.

Lemma b2z_range (b : bool) : 0 <= Z.b2z b <= 1.
Proof. destruct b; simpl; lia. Qed.

(** ** [pbch_extract] *)

Lemma pbch_v_shift (cell : Cell) :
  let v := wrap_uint8 (itpp_mod (n_id_cell cell) 3) in
  v = n_id_cell cell mod 3 /\ (v = 0 \/ v = 1 \/ v = 2).
Proof.
  cbv zeta. rewrite itpp_mod_3.
  pose proof (Z.mod_pos_bound (n_id_cell cell) 3 ltac:(lia)) as Hb.
  rewrite wrap_uint8_small by lia. split; [reflexivity | lia].
Qed.

(** C8 (as amended).  For a cell with normal or extended cyclic prefix
    [pbch_extract] passes its final assertion and returns exactly 960
    (normal CP) or 864 (extended CP) complex symbols, that is
    [m_bit/2] with [m_bit] = 1920 or 1728; they are the grid values at
    the positions of [pbch_positions], which drops the subcarriers
    congruent to [n_id_cell] modulo 3 in symbols 0 and 1 and, for
    extended CP, in symbol 3; each of the four channel-estimate rows has
    the same length. *)
Theorem pbch_extract_count {C : Type} (cell : Cell) (tfg : @cmat C)
    (ce : Z -> @cmat C) (nsd : Z) :
  n_symb_dl cell = Some nsd ->
  exists syms ces,
    pbch_extract cell tfg ce = Some (syms, ces)
    /\ length syms
       = match cp_type cell with cp_type_t.NORMAL => 960%nat | _ => 864%nat end
    /\ syms = map (fun p => tfg (fst p) (snd p))
                  (pbch_positions (n_id_cell cell mod 3) nsd)
    /\ Forall (fun row => length row = length syms) ces.
Proof.
  intros Hn. unfold pbch_extract. rewrite Hn.
  destruct (pbch_v_shift cell) as [Hv Hc]. cbv zeta in Hv, Hc.
  rewrite <- Hv. clear Hv.
  unfold n_symb_dl in Hn.
  destruct (cp_type cell); inversion Hn; subst nsd; clear Hn;
    destruct Hc as [-> | [-> | ->]];
    (eexists; eexists; split; [vm_compute; reflexivity |];
     split; [reflexivity |]; split; [vm_compute; reflexivity |];
     repeat constructor).
Qed.

(** C8, the claim as stated fails: on a normal-CP cell the extraction
    returns 960 symbols, not 1920. *)
Lemma pbch_extract_not_1920 :
  option_map (fun r => length (fst r))
    (pbch_extract example_cell (fun _ _ => 0%Z) (fun _ _ _ => 0%Z))
  = Some 960%nat
  /\ 960%nat <> 1920%nat.
Proof. split; [vm_compute; reflexivity | discriminate]. Qed.

Lemma pbch_extract_count_witness :
  exists syms ces,
    pbch_extract example_cell (fun r c => r * 100 + c) (fun p r c => p)
    = Some (syms, ces)
    /\ length syms = 960%nat
    /\ nth 0 syms 0 = 700 /\ nth 1 syms 0 = 702.
Proof.
  destruct (pbch_extract_count example_cell (fun r c => r * 100 + c)
              (fun p r c => p) 7 eq_refl)
    as (syms & ces & He & Hl & Hs & _).
  exists syms, ces. split; [exact He |]. split; [exact Hl |].
  rewrite Hs. split; vm_compute; reflexivity.
Defined.


(** ** [decode_mib] *)

Section DecodeMibFacts.
Variable lte_calc_crc16 : list bool -> list bool.
Variable pbch_c_est : Cell -> Z -> Z -> list bool.

(** The two loops return at the first hypothesis whose CRC matches. *)
Lemma decode_mib_guesses_first_pass (cell cell_out : Cell) :
  decode_mib_guesses lte_calc_crc16 pbch_c_est cell cell_out (zrange 0 4)
  = match first_pass lte_calc_crc16 pbch_c_est cell with
    | Some (g, np) => Some (mib_unpack cell_out g np (pbch_c_est cell g np))
    | None => None
    end.
Proof.
  unfold first_pass, mib_hypotheses. cbn.
  repeat match goal with
  | |- context [crc_check ?f ?p ?c ?g ?n] =>
      destruct (crc_check f p c g n); cbn; try reflexivity
  end.
Qed.

Lemma decode_mib_first_pass (cell : Cell) (g np nsd : Z) :
  n_symb_dl cell = Some nsd ->
  first_pass lte_calc_crc16 pbch_c_est cell = Some (g, np) ->
  decode_mib lte_calc_crc16 pbch_c_est cell
  = Some (mib_unpack cell g np (pbch_c_est cell g np)).
Proof.
  intros Hn Hf. unfold decode_mib. rewrite Hn.
  rewrite decode_mib_guesses_first_pass, Hf. reflexivity.
Qed.

Lemma first_pass_hypothesis (cell : Cell) (g np : Z) :
  first_pass lte_calc_crc16 pbch_c_est cell = Some (g, np) ->
  crc_check lte_calc_crc16 pbch_c_est cell g np = true /\ 0 <= g <= 3 /\ (np = 1 \/ np = 2 \/ np = 4).
Proof.
  unfold first_pass. intros H.
  apply List.find_some in H. destruct H as [Hin Hc]. cbn in Hc.
  split; [exact Hc |].
  unfold mib_hypotheses in Hin. vm_compute in Hin.
  repeat (destruct Hin as [Hin | Hin]; [inversion Hin; lia |]).
  contradiction.
Qed.
End DecodeMibFacts.

Lemma sfn_high_sum (c_est : list bool) :
  sfn_high c_est
  = 128 * c_est_ivec c_est 6 + 64 * c_est_ivec c_est 7
    + 32 * c_est_ivec c_est 8 + 16 * c_est_ivec c_est 9
    + 8 * c_est_ivec c_est 10 + 4 * c_est_ivec c_est 11
    + 2 * c_est_ivec c_est 12 + c_est_ivec c_est 13.
Proof. unfold sfn_high, bits_to_unsigned, c_est_ivec. cbn. lia. Qed.

Lemma sfn_high_range (c_est : list bool) : 0 <= sfn_high c_est <= 255.
Proof.
  rewrite sfn_high_sum. unfold c_est_ivec.
  repeat match goal with
  | |- context [Z.b2z ?b] =>
      let H := fresh in pose proof (b2z_range b) as H;
      generalize dependent (Z.b2z b); intros
  end.
  lia.
Qed.

Lemma sfn_mib_unpack (cell_out : Cell) (g np : Z) (c_est : list bool) :
  sfn (mib_unpack cell_out g np c_est)
  = matlab_mod (sfn_temp c_est * 4 - g) 1024.
Proof. reflexivity. Qed.

(** C1.  Whenever a hypothesis [(g, n_ports)] is the first to pass the
    CRC check, [decode_mib] returns a cell whose [sfn] is
    [(sfn_high*4 - g) mod 1024], with [sfn_high] the unsigned byte in
    MIB bits 6..13 (between 0 and 255) and [g] in 0..3; the signed
    [int8] temporary of the source does not change the result. *)
Theorem decode_mib_sfn (lte_calc_crc16 : list bool -> list bool)
    (pbch_c_est : Cell -> Z -> Z -> list bool)
    (cell : Cell) (g np nsd : Z) :
  n_symb_dl cell = Some nsd ->
  first_pass lte_calc_crc16 pbch_c_est cell = Some (g, np) ->
  exists cell_out,
    decode_mib lte_calc_crc16 pbch_c_est cell = Some cell_out
    /\ sfn cell_out = (sfn_high (pbch_c_est cell g np) * 4 - g) mod 1024
    /\ 0 <= sfn_high (pbch_c_est cell g np) <= 255
    /\ 0 <= g <= 3
    /\ 0 <= sfn cell_out < 1024.
Proof.
  intros Hn Hf.
  eexists. split; [apply (decode_mib_first_pass _ _ _ _ _ _ Hn Hf) |].
  destruct (first_pass_hypothesis _ _ _ _ _ Hf) as (_ & Hg & _).
  assert (Hs : sfn (mib_unpack cell g np (pbch_c_est cell g np))
               = (sfn_high (pbch_c_est cell g np) * 4 - g) mod 1024).
  { rewrite sfn_mib_unpack. unfold matlab_mod, sfn_temp.
    rewrite wrap_int8_times4_mod, sfn_high_sum. reflexivity. }
  rewrite Hs.
  repeat split; try apply sfn_high_range; try lia;
    apply Z.mod_pos_bound; lia.
Qed.

Lemma decode_mib_sfn_witness :
  exists cell_out,
    decode_mib example_crc example_chain example_cell = Some cell_out
    /\ sfn cell_out = (sfn_high (example_chain example_cell 0 1) * 4 - 0) mod 1024
    /\ 0 <= sfn_high (example_chain example_cell 0 1) <= 255
    /\ 0 <= 0 <= 3
    /\ 0 <= sfn cell_out < 1024.
Proof.
  apply (decode_mib_sfn example_crc example_chain example_cell 0 1 7).
  - reflexivity.
  - vm_compute. reflexivity.
Defined.

Lemma unpack_n_rb_dl_reserved (c_est : list bool) (cell_out : Cell) :
  bw_packed c_est = 6 \/ bw_packed c_est = 7 ->
  unpack_n_rb_dl c_est cell_out = cell_out.
Proof. unfold unpack_n_rb_dl. intros [-> | ->]; reflexivity. Qed.

Lemma unpack_phich_resource_table (c_est : list bool) (cell_out : Cell) :
  unpack_phich_resource c_est cell_out
  = set_phich_resource
      (match nth 4 c_est false, nth 5 c_est false with
       | false, false => phich_resource_t.oneSixth
       | false, true => phich_resource_t.half
       | true, false => phich_resource_t.one
       | true, true => phich_resource_t.two
       end) cell_out.
Proof.
  unfold unpack_phich_resource, phich_res, c_est_ivec.
  destruct (nth 4 c_est false), (nth 5 c_est false); reflexivity.
Qed.

(** C10.  When the first hypothesis to pass the CRC check carries a
    bandwidth field of 6 or 7, [decode_mib] still returns at that
    hypothesis: [n_ports], [phich_duration], [phich_resource] and [sfn]
    are set from the block, [n_rb_dl] keeps the value it had in the
    input cell, and every other field is the input's. *)
Theorem decode_mib_reserved_bandwidth
    (lte_calc_crc16 : list bool -> list bool)
    (pbch_c_est : Cell -> Z -> Z -> list bool)
    (cell : Cell) (g np nsd : Z) :
  n_symb_dl cell = Some nsd ->
  first_pass lte_calc_crc16 pbch_c_est cell = Some (g, np) ->
  bw_packed (pbch_c_est cell g np) = 6 \/ bw_packed (pbch_c_est cell g np) = 7 ->
  let c_est := pbch_c_est cell g np in
  exists cell_out,
    decode_mib lte_calc_crc16 pbch_c_est cell = Some cell_out
    /\ n_rb_dl cell_out = n_rb_dl cell
    /\ n_ports cell_out = np
    /\ phich_duration cell_out
       = (if nth 3 c_est false then phich_duration_t.EXTENDED
          else phich_duration_t.NORMAL)
    /\ phich_resource cell_out
       = (match nth 4 c_est false, nth 5 c_est false with
          | false, false => phich_resource_t.oneSixth
          | false, true => phich_resource_t.half
          | true, false => phich_resource_t.one
          | true, true => phich_resource_t.two
          end)
    /\ sfn cell_out = (sfn_high c_est * 4 - g) mod 1024
    /\ cell_out
       = set_sfn (sfn cell_out)
           (set_phich_resource (phich_resource cell_out)
              (set_phich_duration (phich_duration cell_out)
                 (set_n_ports np cell))).
Proof.
  intros Hn Hf Hbw c_est.
  eexists. split; [apply (decode_mib_first_pass _ _ _ _ _ _ Hn Hf) |].
  fold c_est. unfold mib_unpack.
  rewrite (unpack_n_rb_dl_reserved _ _ Hbw), unpack_phich_resource_table.
  unfold matlab_mod, sfn_temp. rewrite wrap_int8_times4_mod, <- sfn_high_sum.
  unfold c_est_ivec.
  destruct (nth 3 c_est false); repeat split; reflexivity.
Qed.

Lemma decode_mib_reserved_bandwidth_witness :
  exists cell_out,
    decode_mib example_crc example_chain example_cell = Some cell_out
    /\ n_rb_dl cell_out = (-1)
    /\ n_ports cell_out = 1
    /\ sfn cell_out = 516.
Proof.
  destruct (decode_mib_reserved_bandwidth example_crc example_chain
              example_cell 0 1 7) as (c & H1 & H2 & H3 & _ & _ & H6 & _).
  - reflexivity.
  - vm_compute. reflexivity.
  - left. vm_compute. reflexivity.
  - exists c. repeat split; assumption.
Defined.

(** ** [peak_search]: comparisons and maxima *)

Lemma Qltb_lt (x y : Q) : Qltb x y = true <-> (x < y)%Q.
Proof.
  unfold Qltb. rewrite negb_true_iff. split.
  - intros H. apply Qnot_le_lt. intros Hle.
    apply Qle_bool_iff in Hle. congruence.
  - intros H. destruct (Qle_bool y x) eqn:E; [| reflexivity].
    apply Qle_bool_iff in E. exfalso. eapply Qlt_not_le; eassumption.
Qed.

Lemma Qltb_ge (x y : Q) : Qltb x y = false <-> (y <= x)%Q.
Proof.
  unfold Qltb. rewrite negb_false_iff. apply Qle_bool_iff.
Qed.

Lemma Qltb_irrefl (x : Q) : Qltb x x = false.
Proof. apply Qltb_ge. apply Qle_refl. Qed.

(** [vec_max_from] returns either the running maximum it was given or
    an element of the vector, and bounds both. *)
Lemma vec_max_from_spec (v : list Q) :
  forall (best : Q) (best_i i : Z) (m : Q) (k : Z),
  vec_max_from best best_i i v = (m, k) ->
  ((m = best /\ k = best_i)
   \/ (i <= k < i + Z.of_nat (length v) /\ nth (Z.to_nat (k - i)) v 0%Q = m))
  /\ (best <= m)%Q
  /\ Forall (fun x => (x <= m)%Q) v.
Proof.
  induction v as [| x v IH]; intros best best_i i m k H; simpl in H.
  - inversion H; subst. split; [left; auto |]. split; [apply Qle_refl | constructor].
  - destruct (Qltb best x) eqn:E.
    + apply IH in H. destruct H as (Hor & Hle & Hall).
      split; [| split].
      * right. destruct Hor as [[-> ->] | [Hk Hn]].
        -- split; [simpl length; lia |]. replace (i - i) with 0 by lia. reflexivity.
        -- split; [simpl length; lia |].
           replace (Z.to_nat (k - i)) with (S (Z.to_nat (k - (i + 1)))) by lia.
           exact Hn.
      * apply Qltb_lt in E. apply Qlt_le_weak. eapply Qlt_le_trans; eassumption.
      * constructor; assumption.
    + apply IH in H. destruct H as (Hor & Hle & Hall).
      split; [| split].
      * destruct Hor as [[-> ->] | [Hk Hn]]; [left; auto | right].
        split; [simpl length; lia |].
        replace (Z.to_nat (k - i)) with (S (Z.to_nat (k - (i + 1)))) by lia.
        exact Hn.
      * exact Hle.
      * constructor; [| assumption].
        apply Qltb_ge in E. eapply Qle_trans; eassumption.
Qed.

Lemma vec_max_spec (v : list Q) (m : Q) (k : Z) :
  v <> [] ->
  vec_max v = (m, k) ->
  0 <= k < Z.of_nat (length v)
  /\ nth (Z.to_nat k) v 0%Q = m
  /\ Forall (fun x => (x <= m)%Q) v.
Proof.
  destruct v as [| x v]; [congruence |]. intros _ H. simpl in H.
  apply vec_max_from_spec in H. destruct H as (Hor & Hle & Hall).
  split; [| split].
  - destruct Hor as [[_ ->] | [Hk _]]; simpl length; lia.
  - destruct Hor as [[-> ->] | [Hk Hn]]; [reflexivity |].
    replace (Z.to_nat k) with (S (Z.to_nat (k - 1))) by lia. exact Hn.
  - constructor; assumption.
Qed.

Lemma mat_shape_inv (w : mat) :
  mat_shape w ->
  exists r0 r1 r2,
    w = [r0; r1; r2]
    /\ length r0 = Z.to_nat 9600 /\ length r1 = Z.to_nat 9600
    /\ length r2 = Z.to_nat 9600.
Proof.
  intros [Hl Hf].
  destruct w as [| r0 [| r1 [| r2 [| ? ?]]]]; try discriminate.
  inversion Hf as [| ? ? H0 Hf1]; subst.
  inversion Hf1 as [| ? ? H1 Hf2]; subst.
  inversion Hf2 as [| ? ? H2 _]; subst.
  exists r0, r1, r2. auto.
Qed.

Lemma row_nonempty (row : list Q) : length row = Z.to_nat 9600 -> row <> [].
Proof. intros H ->. simpl in H. lia. Qed.

Lemma find_peak_max (w : mat) (P : Q) (n p : Z) :
  mat_shape w ->
  find_peak w = (P, n, p) ->
  0 <= n < 3 /\ 0 <= p < 9600
  /\ mat_get w n p = P
  /\ Forall (Forall (fun x => (x <= P)%Q)) w.
Proof.
  intros Hs H. destruct (mat_shape_inv w Hs) as (r0 & r1 & r2 & -> & H0 & H1 & H2).
  unfold find_peak in H. cbn [map] in H.
  destruct (vec_max r0) as [m0 i0] eqn:E0.
  destruct (vec_max r1) as [m1 i1] eqn:E1.
  destruct (vec_max r2) as [m2 i2] eqn:E2.
  cbn [fst snd] in H.
  destruct (vec_max [m0; m1; m2]) as [pp nn] eqn:E.
  injection H as HP' Hn' Hp'. subst P n p. rename pp into P, nn into n.
  apply vec_max_spec in E0; [| apply row_nonempty; assumption].
  apply vec_max_spec in E1; [| apply row_nonempty; assumption].
  apply vec_max_spec in E2; [| apply row_nonempty; assumption].
  apply vec_max_spec in E; [| discriminate].
  destruct E0 as (Hi0 & Hn0 & Ha0), E1 as (Hi1 & Hn1 & Ha1),
           E2 as (Hi2 & Hn2 & Ha2), E as (Hn & HP & HaP).
  simpl length in Hn.
  rewrite H0 in Hi0. rewrite H1 in Hi1. rewrite H2 in Hi2.
  rewrite Z2Nat.id in Hi0, Hi1, Hi2 by lia.
  apply List.Forall_cons_iff in HaP as [Hm0 HaP].
  apply List.Forall_cons_iff in HaP as [Hm1 HaP].
  apply List.Forall_cons_iff in HaP as [Hm2 _].
  assert (Hcase : n = 0 \/ n = 1 \/ n = 2) by lia.
  split; [lia |].
  assert (Hall : Forall (Forall (fun x => (x <= P)%Q)) [r0; r1; r2]).
  { repeat constructor.
    - eapply Forall_impl; [exact Ha0 |]. intros x Hx. cbv beta in *. eapply Qle_trans; eassumption.
    - eapply Forall_impl; [exact Ha1 |]. intros x Hx. cbv beta in *. eapply Qle_trans; eassumption.
    - eapply Forall_impl; [exact Ha2 |]. intros x Hx. cbv beta in *. eapply Qle_trans; eassumption. }
  unfold mat_get.
  destruct Hcase as [-> | [-> | ->]];
    [ change (Z.to_nat 0) with 0%nat in *
    | change (Z.to_nat 1) with 1%nat in *
    | change (Z.to_nat 2) with 2%nat in * ];
    cbn in HP |- *;
    (split; [lia | split; [congruence | exact Hall]]).
Qed.

(** X1.  On a 3 x 9600 matrix the search for the largest peak returns
    a position inside the matrix ([0 <= peak_n_id_2 < 3],
    [0 <= peak_ind < 9600]), the power stored at that position, and
    that power bounds every entry. *)
Theorem find_peak_spec (w : mat) (P : Q) (n p : Z) :
  mat_shape w ->
  find_peak w = (P, n, p) ->
  0 <= n < 3 /\ 0 <= p < 9600
  /\ mat_get w n p = P
  /\ Forall (Forall (fun x => (x <= P)%Q)) w.
Proof. exact (find_peak_max w P n p). Qed.

(** ** [peak_search]: the blanking loops, row by row *)

Lemma alter_fixed {A : Type} (f : A -> A) (l : list A) (i : nat) :
  (forall x, l !! i = Some x -> f x = x) -> alter f i l = l.
Proof.
  intros H. rewrite (list_alter_ext f (fun x => x) l l i H eq_refl).
  apply list_alter_id. reflexivity.
Qed.

Lemma insert_zero_id (row : list Q) (i : nat) :
  nth i row 0%Q = 0%Q -> <[i := 0%Q]> row = row.
Proof.
  intros H. apply list_insert_id'. intros Hlt.
  destruct (lookup_lt_is_Some_2 row i Hlt) as [x Hx].
  rewrite nth_lookup, Hx in H. simpl in H. subst x. exact Hx.
Qed.

Lemma mat_get_row (w : mat) (r c : Z) :
  mat_get w r c = nth (Z.to_nat c) (default [] (w !! Z.to_nat r)) 0%Q.
Proof. unfold mat_get. rewrite (nth_lookup w). reflexivity. Qed.

(** A loop whose every step rewrites row [r] is one rewrite of row
    [r] by the loop of the row steps. *)
Lemma fold_alter {B : Type} (step : mat -> B -> mat)
    (rs : B -> list Q -> list Q) (r : nat) :
  (forall w c, step w c = alter (rs c) r w) ->
  forall cs w,
    fold_left step cs w
    = alter (fun row => fold_left (fun row c => rs c row) cs row) r w.
Proof.
  intros Hstep cs. induction cs as [| c cs IH]; intros w; cbn [fold_left].
  - symmetry. apply list_alter_id. reflexivity.
  - rewrite IH, Hstep. rewrite list_alter_alter_eq. reflexivity.
Qed.

Lemma cond_step_alter (th : Q) (r c : Z) (w : mat) :
  (if Qltb (mat_get w r c) th then mat_set w r c 0%Q else w)
  = alter (clear_below th (Z.to_nat c)) (Z.to_nat r) w.
Proof.
  rewrite mat_get_row. unfold mat_set.
  destruct (w !! Z.to_nat r) as [row |] eqn:E; cbn [default from_option]; unfold id.
  - destruct (Qltb (nth (Z.to_nat c) row 0%Q) th) eqn:Ec.
    + apply list_alter_ext; [| reflexivity].
      intros x Hx. rewrite E in Hx. injection Hx as <-.
      unfold clear_below. rewrite Ec. reflexivity.
    + symmetry. apply alter_fixed.
      intros x Hx. rewrite E in Hx. injection Hx as <-.
      unfold clear_below. rewrite Ec. reflexivity.
  - rewrite !alter_fixed; try (intros x Hx; rewrite E in Hx; discriminate).
    destruct (Qltb _ _); reflexivity.
Qed.

(** Unconditional clearing of the positions [g t], [t] in [ts]. *)
Lemma fold_insert_lookup {B : Type} (g : B -> nat) (ts : list B) :
  forall (row : list Q) (i : nat),
  fold_left (fun row t => <[g t := 0%Q]> row) ts row !! i
  = if existsb (fun t => Nat.eqb (g t) i) ts
    then (fun _ => 0%Q) <$> row !! i
    else row !! i.
Proof.
  induction ts as [| t ts IH]; intros row i; simpl; [reflexivity |].
  rewrite IH. destruct (Nat.eqb (g t) i) eqn:E; simpl.
  - apply Nat.eqb_eq in E. subst i.
    destruct (decide (g t < length row)%nat) as [Hlt | Hge].
    + rewrite list_lookup_insert_eq by assumption.
      destruct (lookup_lt_is_Some_2 row (g t) Hlt) as [x Hx]. rewrite Hx.
      destruct (existsb _ ts); reflexivity.
    + rewrite list_insert_ge by lia.
      rewrite (lookup_ge_None_2 row (g t)) by lia.
      destruct (existsb _ ts); reflexivity.
  - apply Nat.eqb_neq in E.
    rewrite list_lookup_insert_ne by assumption. reflexivity.
Qed.

(** Conditional clearing where the positions read are already zero
    changes nothing. *)
Lemma fold_clear_zero (th : Q) {B : Type} (g : B -> nat) (ts : list B)
    (row : list Q) :
  (forall t, In t ts -> nth (g t) row 0%Q = 0%Q) ->
  fold_left (fun row t => clear_below th (g t) row) ts row = row.
Proof.
  induction ts as [| t ts IH]; intros H; simpl; [reflexivity |].
  assert (Hs : clear_below th (g t) row = row).
  { unfold clear_below. destruct (Qltb _ _); [| reflexivity].
    apply insert_zero_id. apply H. left. reflexivity. }
  rewrite Hs. apply IH. intros t' Ht'. apply H. right. exact Ht'.
Qed.

Lemma fold_insert_zero_at {B : Type} (g : B -> nat) (ts : list B)
    (row : list Q) (t : B) :
  In t ts ->
  nth (g t) (fold_left (fun row t => <[g t := 0%Q]> row) ts row) 0%Q = 0%Q.
Proof.
  intros Hin. rewrite nth_lookup, fold_insert_lookup.
  assert (He : existsb (fun t' => Nat.eqb (g t') (g t)) ts = true).
  { apply existsb_exists. exists t. split; [exact Hin | apply Nat.eqb_refl]. }
  rewrite He. destruct (row !! g t); reflexivity.
Qed.

Lemma In_zrange (lo : Z) (n : nat) (x : Z) :
  In x (zrange lo n) <-> lo <= x < lo + Z.of_nat n.
Proof.
  unfold zrange. rewrite in_map_iff. split.
  - intros (i & <- & Hi). apply in_seq in Hi. lia.
  - intros H. exists (Z.to_nat (x - lo)). split; [lia |].
    apply in_seq. lia.
Qed.

(** The 549 positions [matlab_mod(peak_ind+t,9600)], [-274<=t<=274],
    are the positions [c] with [in_window peak_ind c]. *)
Lemma in_window_hit (p : Z) (i : nat) :
  (i < Z.to_nat 9600)%nat ->
  existsb (fun t => Nat.eqb (Z.to_nat (matlab_mod (p + t) 9600)) i)
          (zrange (-274) 549)
  = in_window p (Z.of_nat i).
Proof.
  intros Hi. apply eq_true_iff_eq. rewrite existsb_exists.
  unfold in_window, matlab_mod. rewrite Z.leb_le. split.
  - intros (t & Ht & He). apply In_zrange in Ht. apply Nat.eqb_eq in He.
    pose proof (Z.mod_pos_bound (p + t) 9600 ltac:(lia)) as Hb.
    assert (Hc : Z.of_nat i = (p + t) mod 9600) by lia.
    rewrite Hc.
    replace ((p + t) mod 9600 - p + 274)
      with ((p + t) mod 9600 + (274 - p)) by lia.
    rewrite Zplus_mod_idemp_l.
    replace (p + t + (274 - p)) with (t + 274) by lia.
    rewrite Z.mod_small by lia. lia.
  - intros Hle.
    pose proof (Z.mod_pos_bound (Z.of_nat i - p + 274) 9600 ltac:(lia)) as Hb.
    exists ((Z.of_nat i - p + 274) mod 9600 - 274). split.
    + apply In_zrange. lia.
    + apply Nat.eqb_eq.
      replace (p + ((Z.of_nat i - p + 274) mod 9600 - 274))
        with ((Z.of_nat i - p + 274) mod 9600 + (p - 274)) by lia.
      rewrite Zplus_mod_idemp_l.
      replace (Z.of_nat i - p + 274 + (p - 274)) with (Z.of_nat i) by lia.
      rewrite Z.mod_small by lia. lia.
Qed.

(** [blank_same] clears the window in row [peak_n_id_2] and touches
    nothing else. *)
Lemma blank_same_alter (w : mat) (n p : Z) :
  blank_same w n p
  = alter (fun row =>
             fold_left (fun row t =>
                 <[Z.to_nat (matlab_mod (p + t) 9600) := 0%Q]> row)
               (zrange (-274) 549) row)
          (Z.to_nat n) w.
Proof.
  unfold blank_same.
  apply (fold_alter (fun w t => mat_set w n (matlab_mod (p + t) 9600) 0%Q)
           (fun t row => <[Z.to_nat (matlab_mod (p + t) 9600) := 0%Q]> row)).
  intros w' c. reflexivity.
Qed.

Lemma window_row (p : Z) (row : list Q) :
  length row = Z.to_nat 9600 ->
  fold_left (fun row t => <[Z.to_nat (matlab_mod (p + t) 9600) := 0%Q]> row)
            (zrange (-274) 549) row
  = imap (fun c x => if in_window p (Z.of_nat c) then 0%Q else x) row.
Proof.
  intros Hl. apply list_eq. intros i.
  rewrite (fold_insert_lookup
             (fun t => Z.to_nat (matlab_mod (p + t) 9600))), list_lookup_imap.
  destruct (row !! i) as [x |] eqn:E.
  - apply lookup_lt_Some in E. rewrite in_window_hit by lia.
    destruct (in_window p (Z.of_nat i)); reflexivity.
  - destruct (existsb _ _); reflexivity.
Qed.

Lemma window_reclear_no_effect (ts : list Z) (w : mat) (thresh : Q) (n p : Z) :
  let w1 := fold_left (fun w t => mat_set w n (matlab_mod (p + t) 9600) 0%Q) ts w in
  fold_left (fun w t =>
      let c := matlab_mod (p + t) 9600 in
      if Qltb (mat_get w n c) thresh then mat_set w n c 0%Q else w) ts w1
  = w1.
Proof.
  intros w1.
  rewrite (fold_alter _
             (fun t => clear_below thresh (Z.to_nat (matlab_mod (p + t) 9600)))
             (Z.to_nat n)).
  2:{ intros w' c. cbv zeta. apply cond_step_alter. }
  apply alter_fixed. intros row Hrow.
  apply (fold_clear_zero thresh
           (fun t => Z.to_nat (matlab_mod (p + t) 9600))).
  intros t Ht. unfold w1 in Hrow.
  rewrite (fold_alter (fun w t => mat_set w n (matlab_mod (p + t) 9600) 0%Q)
             (fun t row => <[Z.to_nat (matlab_mod (p + t) 9600) := 0%Q]> row)
             (Z.to_nat n)) in Hrow by (intros; reflexivity).
  rewrite list_lookup_alter_eq in Hrow.
  apply fmap_Some in Hrow. destruct Hrow as (row0 & _ & ->).
  apply (fold_insert_zero_at
           (fun t => Z.to_nat (matlab_mod (p + t) 9600))). exact Ht.
Qed.

Lemma blank_other_id (w : mat) (thresh : Q) (n p : Z) :
  blank_other (blank_same w n p) thresh n p = blank_same w n p.
Proof.
  unfold blank_other, blank_same.
  pose proof (window_reclear_no_effect (zrange (-274) 549) w thresh n p)
    as Hinner.
  cbv zeta in Hinner.
  generalize dependent (zrange (-274) 549). intros ts Hinner.
  generalize (zrange 0 4). intros ns.
  induction ns as [| n' ns IH]; cbn [fold_left]; [reflexivity |].
  destruct (Z.eqb n' n); [exact IH |]. rewrite Hinner. exact IH.
Qed.

(** X2.  After the window of row [peak_n_id_2] has been cleared, the
    loop commented "Cancel out other PSS sequences whose power is
    within 8dB" changes nothing, whatever the matrix and the threshold:
    for each [n] it reads and writes row [peak_n_id_2], never row
    [n]. *)
Theorem blank_other_no_effect (w : mat) (thresh : Q) (n p : Z) :
  blank_other (blank_same w n p) thresh n p = blank_same w n p.
Proof. exact (blank_other_id w thresh n p). Qed.

Lemma clear_below_oob (th : Q) (l : list Q) (cs : list nat) :
  (forall i, In i cs -> (length l <= i)%nat) ->
  fold_left (fun row i => clear_below th i row) cs l = l.
Proof.
  induction cs as [| c cs IH]; intros H; cbn [fold_left]; [reflexivity |].
  assert (Hs : clear_below th c l = l).
  { unfold clear_below. destruct (Qltb _ _); [| reflexivity].
    apply list_insert_ge. apply H. left. reflexivity. }
  rewrite Hs. apply IH. intros i Hi. apply H. right. exact Hi.
Qed.

Lemma clear_below_seq (th : Q) (n : nat) :
  forall (row pre : list Q),
  (length row <= n)%nat ->
  fold_left (fun row i => clear_below th i row) (seq (length pre) n) (pre ++ row)
  = pre ++ map (clear_weak th) row.
Proof.
  induction n as [| n IH]; intros row pre Hl.
  - destruct row; [reflexivity | simpl in Hl; lia].
  - cbn [seq fold_left]. destruct row as [| x row].
    + rewrite clear_below_oob.
      * unfold clear_below. destruct (Qltb _ _); [| reflexivity].
        apply list_insert_ge. rewrite length_app. simpl. lia.
      * intros i Hi. apply in_seq in Hi.
        unfold clear_below. destruct (Qltb _ _);
          rewrite ?length_insert, length_app; simpl; lia.
    + assert (Hs : clear_below th (length pre) (pre ++ x :: row)
                   = (pre ++ [clear_weak th x]) ++ row).
      { unfold clear_below, clear_weak.
        rewrite app_nth2 by lia. rewrite Nat.sub_diag. cbn [nth].
        rewrite <- app_assoc. cbn [app].
        destruct (Qltb x th); [| reflexivity].
        replace (length pre) with (length pre + 0)%nat at 1 by lia.
        rewrite insert_app_r. reflexivity. }
      rewrite Hs.
      replace (S (length pre)) with (length (pre ++ [clear_weak th x]))
        by (rewrite length_app; simpl; lia).
      rewrite IH by (simpl in Hl; lia).
      rewrite <- app_assoc. reflexivity.
Qed.

Lemma fold_left_zrange {A : Type} (f : A -> Z -> A) (lo : Z) (n : nat) (a : A) :
  fold_left f (zrange lo n) a
  = fold_left (fun a i => f a (lo + Z.of_nat i)) (seq 0 n) a.
Proof.
  unfold zrange. generalize (seq 0 n). intros l. revert a.
  induction l as [| i l IH]; intros a; cbn [map fold_left]; [reflexivity |].
  apply IH.
Qed.

Lemma fold_left_pointwise {A B : Type} (f g : A -> B -> A) (l : list B) :
  (forall a b, f a b = g a b) ->
  forall a, fold_left f l a = fold_left g l a.
Proof.
  intros H. induction l as [| b l IH]; intros a; cbn [fold_left];
    [reflexivity | rewrite H; apply IH].
Qed.

Lemma weak_row (th : Q) (row : list Q) :
  length row = Z.to_nat 9600 ->
  fold_left (fun row c => clear_below th (Z.to_nat c) row)
            (zrange 0 (Z.to_nat 9600)) row
  = map (clear_weak th) row.
Proof.
  intros Hl. rewrite fold_left_zrange.
  pose proof (clear_below_seq th (Z.to_nat 9600) row [] ltac:(lia)) as H.
  cbn [length app] in H. rewrite <- H.
  apply fold_left_pointwise. intros r i.
  replace (Z.to_nat (0 + Z.of_nat i)) with i by lia. reflexivity.
Qed.

Lemma blank_weak_rows (th : Q) (w : mat) :
  blank_weak w th
  = fold_left (fun w r =>
        alter (fun row =>
                 fold_left (fun row c => clear_below th (Z.to_nat c) row)
                           (zrange 0 (Z.to_nat 9600)) row)
              (Z.to_nat r) w)
      (zrange 0 3) w.
Proof.
  unfold blank_weak. apply fold_left_pointwise. intros w' r.
  apply (fold_alter
           (fun w c => if Qltb (mat_get w r c) th then mat_set w r c 0%Q else w)
           (fun c => clear_below th (Z.to_nat c))).
  intros w'' c. apply cond_step_alter.
Qed.

Lemma alter_three {A : Type} (G : A -> A) (a b c : A) :
  fold_left (fun w r => alter G (Z.to_nat r) w) (zrange 0 3) [a; b; c]
  = [G a; G b; G c].
Proof. reflexivity. Qed.

Lemma blank_weak_map (th : Q) (w : mat) :
  mat_shape w -> blank_weak w th = map (map (clear_weak th)) w.
Proof.
  intros Hs. destruct (mat_shape_inv w Hs) as (r0 & r1 & r2 & -> & H0 & H1 & H2).
  rewrite blank_weak_rows, alter_three.
  rewrite !weak_row by assumption. reflexivity.
Qed.

Lemma row_blank_in (udb10 : Q -> Q) (P : Q) (n p : Z) (row : list Q) :
  map (clear_weak (P * udb10 (-12))%Q)
      (imap (fun c x => if in_window p (Z.of_nat c) then 0%Q else x) row)
  = imap (fun c x => blank_entry udb10 P n p n (Z.of_nat c) x) row.
Proof.
  apply list_eq. intros i.
  rewrite list_lookup_fmap, !list_lookup_imap.
  destruct (row !! i) as [x |]; [| reflexivity]. cbn. f_equal.
  unfold blank_entry, clear_weak. rewrite Z.eqb_refl. cbn.
  destruct (in_window p (Z.of_nat i)); [| reflexivity].
  destruct (Qltb 0 _); reflexivity.
Qed.

Lemma row_blank_out (udb10 : Q -> Q) (P : Q) (n p r : Z) (row : list Q) :
  r <> n ->
  map (clear_weak (P * udb10 (-12))%Q) row
  = imap (fun c x => blank_entry udb10 P n p r (Z.of_nat c) x) row.
Proof.
  intros Hr. apply list_eq. intros i.
  rewrite list_lookup_fmap, !list_lookup_imap.
  destruct (row !! i) as [x |]; [| reflexivity]. cbn. f_equal.
  unfold blank_entry, clear_weak.
  apply Z.eqb_neq in Hr. rewrite Hr. reflexivity.
Qed.

Lemma mat_shape_three (a b c : list Q) :
  length a = Z.to_nat 9600 -> length b = Z.to_nat 9600 ->
  length c = Z.to_nat 9600 -> mat_shape [a; b; c].
Proof.
  intros Ha Hb Hc. split; [reflexivity |].
  apply List.Forall_cons; [exact Ha |].
  apply List.Forall_cons; [exact Hb |].
  apply List.Forall_cons; [exact Hc |].
  apply List.Forall_nil.
Qed.

Lemma alter_row_cases {A : Type} (F : A -> A) (a b c : A) (n : Z) :
  0 <= n < 3 ->
  (n = 0 /\ alter F (Z.to_nat n) [a; b; c] = [F a; b; c])
  \/ (n = 1 /\ alter F (Z.to_nat n) [a; b; c] = [a; F b; c])
  \/ (n = 2 /\ alter F (Z.to_nat n) [a; b; c] = [a; b; F c]).
Proof.
  intros Hn. assert (Hcase : n = 0 \/ n = 1 \/ n = 2) by lia.
  destruct Hcase as [-> | [-> | ->]]; [left | right; left | right; right];
    split; reflexivity.
Qed.

Lemma blank_all_three (udb10 : Q -> Q) (P : Q) (n p : Z) (a b c : list Q) :
  blank_all udb10 P n p [a; b; c]
  = [imap (fun i x => blank_entry udb10 P n p 0 (Z.of_nat i) x) a;
     imap (fun i x => blank_entry udb10 P n p 1 (Z.of_nat i) x) b;
     imap (fun i x => blank_entry udb10 P n p 2 (Z.of_nat i) x) c].
Proof. reflexivity. Qed.

(** The three blanking loops of one pass compute [blank_all]. *)
Lemma blank_steps_all (udb10 : Q -> Q) (w : mat) (P th8 : Q) (n p : Z) :
  mat_shape w -> 0 <= n < 3 ->
  blank_weak (blank_other (blank_same w n p) th8 n p) (P * udb10 (-12))%Q
  = blank_all udb10 P n p w.
Proof.
  intros Hs Hn. rewrite blank_other_id, blank_same_alter.
  destruct (mat_shape_inv w Hs) as (r0 & r1 & r2 & -> & H0 & H1 & H2).
  rewrite blank_all_three.
  destruct (alter_row_cases
              (fun row =>
                 fold_left (fun row t =>
                     <[Z.to_nat (matlab_mod (p + t) 9600) := 0%Q]> row)
                   (zrange (-274) 549) row) r0 r1 r2 n Hn)
    as [[-> ->] | [[-> ->] | [-> ->]]];
    rewrite window_row by assumption;
    (rewrite blank_weak_map
       by (apply mat_shape_three; rewrite ?length_imap; assumption));
    cbn [map]; rewrite <- (row_blank_in udb10 P _ p);
    rewrite <- !row_blank_out by lia; reflexivity.
Qed.

Lemma blank_all_shape (udb10 : Q -> Q) (P : Q) (n p : Z) (w : mat) :
  mat_shape w -> mat_shape (blank_all udb10 P n p w).
Proof.
  intros [Hl Hf]. unfold blank_all. split.
  - rewrite length_imap. exact Hl.
  - apply Forall_forall. intros row Hin.
    apply elem_of_lookup_imap in Hin. destruct Hin as (i & row0 & -> & Hi).
    rewrite length_imap.
    rewrite Forall_forall in Hf. apply Hf.
    apply list_elem_of_lookup. exists i. exact Hi.
Qed.

(** ** [peak_search]: one pass *)

Section PeakSearchFacts.
Variable udb10 : Q -> Q.
Variable Cell_default : Cell.
Variable xc_incoherent_collapsed_frq : list (list Z).
Variable Z_th1 : list Q.
Variable f_search_set : list Q.
Variable fc_requested_in : Q.
Variable fc_programmed_in : Q.
Variable xc_incoherent_single : vf3d.
Variable ds_comb_arm : Z.

Local Abbreviation iter :=
  (peak_iter udb10 Cell_default xc_incoherent_collapsed_frq Z_th1 f_search_set
     fc_requested_in fc_programmed_in xc_incoherent_single ds_comb_arm).
Local Abbreviation loop :=
  (peak_loop udb10 Cell_default xc_incoherent_collapsed_frq Z_th1 f_search_set
     fc_requested_in fc_programmed_in xc_incoherent_single ds_comb_arm).
Local Abbreviation emitted :=
  (peak_emitted udb10 Cell_default xc_incoherent_collapsed_frq Z_th1 f_search_set
     fc_requested_in fc_programmed_in xc_incoherent_single ds_comb_arm).
Local Abbreviation cell_of :=
  (make_cell Cell_default xc_incoherent_collapsed_frq f_search_set
     fc_requested_in fc_programmed_in xc_incoherent_single ds_comb_arm).

Lemma peak_iter_blank_all_eq (w : mat) :
  mat_shape w ->
  iter w
  = (let '(P, n, p) := find_peak w in
     if Qltb P (vec_get Z_th1 p) then None
     else Some (cell_of P n p, blank_all udb10 P n p w)).
Proof.
  intros Hs. unfold peak_iter.
  destruct (find_peak w) as [[P n] p] eqn:E.
  destruct (find_peak_max w P n p Hs E) as (Hn & _).
  destruct (Qltb P (vec_get Z_th1 p)); [reflexivity |].
  cbv zeta. rewrite blank_steps_all by assumption. reflexivity.
Qed.

(** X3.  One pass on a 3 x 9600 matrix: it breaks when the largest
    peak is below the threshold at its sample; otherwise it pushes the
    cell of that peak and the three blanking loops together leave
    exactly [blank_all]: the 549 samples around the peak cleared in the
    peak's row, every entry below [peak_pow*udb10(-12)] cleared in all
    rows, everything else as it was. *)
Theorem peak_iter_blank_all (w : mat) :
  mat_shape w ->
  iter w
  = (let '(P, n, p) := find_peak w in
     if Qltb P (vec_get Z_th1 p) then None
     else Some (cell_of P n p, blank_all udb10 P n p w)).
Proof. exact (peak_iter_blank_all_eq w). Qed.

Lemma peak_iter_some (w w' : mat) (cell : Cell) :
  mat_shape w ->
  iter w = Some (cell, w') ->
  exists P n p,
    find_peak w = (P, n, p)
    /\ (vec_get Z_th1 p <= P)%Q
    /\ pss_pow cell = P /\ n_id_2 cell = n
    /\ w' = blank_all udb10 P n p w.
Proof.
  intros Hs H. rewrite peak_iter_blank_all_eq in H by assumption.
  destruct (find_peak w) as [[P n] p] eqn:E.
  destruct (Qltb P (vec_get Z_th1 p)) eqn:Et; [discriminate |].
  injection H as <- <-. exists P, n, p.
  split; [reflexivity |]. split; [apply Qltb_ge; exact Et |].
  repeat split; reflexivity.
Qed.
End PeakSearchFacts.

(** ** [peak_search]: the number of positive entries decreases *)

Lemma count_pos_cons (x : Q) (l : list Q) :
  count_pos (x :: l) = ((if Qltb 0 x then 1 else 0) + count_pos l)%nat.
Proof. unfold count_pos. cbn [List.filter]. destruct (Qltb 0 x); reflexivity. Qed.

Lemma count_pos_le_length (l : list Q) : (count_pos l <= length l)%nat.
Proof.
  induction l as [| x l IH]; [apply Nat.le_refl |].
  rewrite count_pos_cons. cbn [length]. destruct (Qltb 0 x); lia.
Qed.

Lemma count_pos_imap_le (row : list Q) :
  forall f : nat -> Q -> Q,
  (forall i x, f i x = x \/ f i x = 0%Q) ->
  (count_pos (imap f row) <= count_pos row)%nat.
Proof.
  induction row as [| x row IH]; intros f Hf; [apply Nat.le_refl |].
  rewrite imap_cons, !count_pos_cons.
  specialize (IH (f ∘ S) (fun i y => Hf (S i) y)).
  destruct (Hf 0%nat x) as [-> | ->]; [lia |].
  rewrite Qltb_irrefl. lia.
Qed.

Lemma count_pos_imap_lt (row : list Q) :
  forall (f : nat -> Q -> Q) (i : nat) (x : Q),
  (forall i x, f i x = x \/ f i x = 0%Q) ->
  row !! i = Some x -> Qltb 0 x = true -> f i x = 0%Q ->
  (count_pos (imap f row) < count_pos row)%nat.
Proof.
  induction row as [| y row IH]; intros f i x Hf Hi Hx H0; [discriminate |].
  rewrite imap_cons, !count_pos_cons.
  destruct i as [| i].
  - injection Hi as ->. rewrite H0, Hx, Qltb_irrefl.
    pose proof (count_pos_imap_le row (f ∘ S) (fun i y => Hf (S i) y)). lia.
  - specialize (IH (f ∘ S) i x (fun i y => Hf (S i) y) Hi Hx H0).
    destruct (Hf 0%nat y) as [-> | ->]; [lia |].
    rewrite Qltb_irrefl. lia.
Qed.

Lemma blank_entry_cases (udb10 : Q -> Q) (P : Q) (n p r c : Z) (x : Q) :
  blank_entry udb10 P n p r c x = x \/ blank_entry udb10 P n p r c x = 0%Q.
Proof.
  unfold blank_entry.
  destruct (Z.eqb r n && in_window p c); [right; reflexivity |].
  destruct (Qltb x _); [right | left]; reflexivity.
Qed.

Lemma in_window_self (p : Z) : in_window p p = true.
Proof. unfold in_window. replace (p - p + 274) with 274 by lia. reflexivity. Qed.

Lemma blank_entry_peak (udb10 : Q -> Q) (P : Q) (n p : Z) (x : Q) :
  blank_entry udb10 P n p n p x = 0%Q.
Proof. unfold blank_entry. rewrite Z.eqb_refl, in_window_self. reflexivity. Qed.

Lemma mat_get_three (a b c : list Q) (n p : Z) :
  0 <= n < 3 ->
  mat_get [a; b; c] n p
  = nth (Z.to_nat p) (if Z.eqb n 0 then a else if Z.eqb n 1 then b else c) 0%Q.
Proof.
  intros Hn. assert (Hcase : n = 0 \/ n = 1 \/ n = 2) by lia.
  destruct Hcase as [-> | [-> | ->]]; reflexivity.
Qed.

Lemma npos_three (a b c : list Q) :
  npos [a; b; c] = (count_pos a + (count_pos b + (count_pos c + 0)))%nat.
Proof. reflexivity. Qed.

Lemma nth_in_range_lookup (row : list Q) (p : Z) :
  0 <= p < 9600 -> length row = Z.to_nat 9600 ->
  row !! Z.to_nat p = Some (nth (Z.to_nat p) row 0%Q).
Proof.
  intros Hp Hl. destruct (nth_lookup_or_length row (Z.to_nat p) 0%Q) as [E | E];
    [exact E | lia].
Qed.

(** A pass that pushes a cell of positive power clears at least one
    positive entry and creates none. *)
Lemma npos_blank_all_lt (udb10 : Q -> Q) (P : Q) (n p : Z) (w : mat) :
  mat_shape w -> 0 <= n < 3 -> 0 <= p < 9600 ->
  mat_get w n p = P -> (0 < P)%Q ->
  (npos (blank_all udb10 P n p w) < npos w)%nat.
Proof.
  intros Hs Hn Hp Hg HP.
  destruct (mat_shape_inv w Hs) as (r0 & r1 & r2 & -> & H0 & H1 & H2).
  rewrite blank_all_three, !npos_three.
  rewrite mat_get_three in Hg by assumption.
  apply Qltb_lt in HP.
  pose proof (count_pos_imap_le r0
                (fun i x => blank_entry udb10 P n p 0 (Z.of_nat i) x)
                (fun i x => blank_entry_cases udb10 P n p 0 (Z.of_nat i) x)) as L0.
  pose proof (count_pos_imap_le r1
                (fun i x => blank_entry udb10 P n p 1 (Z.of_nat i) x)
                (fun i x => blank_entry_cases udb10 P n p 1 (Z.of_nat i) x)) as L1.
  pose proof (count_pos_imap_le r2
                (fun i x => blank_entry udb10 P n p 2 (Z.of_nat i) x)
                (fun i x => blank_entry_cases udb10 P n p 2 (Z.of_nat i) x)) as L2.
  assert (Hcase : n = 0 \/ n = 1 \/ n = 2) by lia.
  destruct Hcase as [-> | [-> | ->]]; cbn in Hg.
  - pose proof (count_pos_imap_lt r0
                  (fun i x => blank_entry udb10 P 0 p 0 (Z.of_nat i) x)
                  (Z.to_nat p) P
                  (fun i x => blank_entry_cases udb10 P 0 p 0 (Z.of_nat i) x)) as S0.
    rewrite nth_in_range_lookup, Hg in S0 by assumption.
    rewrite Z2Nat.id in S0 by lia.
    specialize (S0 eq_refl HP (blank_entry_peak udb10 P 0 p P)). lia.
  - pose proof (count_pos_imap_lt r1
                  (fun i x => blank_entry udb10 P 1 p 1 (Z.of_nat i) x)
                  (Z.to_nat p) P
                  (fun i x => blank_entry_cases udb10 P 1 p 1 (Z.of_nat i) x)) as S1.
    rewrite nth_in_range_lookup, Hg in S1 by assumption.
    rewrite Z2Nat.id in S1 by lia.
    specialize (S1 eq_refl HP (blank_entry_peak udb10 P 1 p P)). lia.
  - pose proof (count_pos_imap_lt r2
                  (fun i x => blank_entry udb10 P 2 p 2 (Z.of_nat i) x)
                  (Z.to_nat p) P
                  (fun i x => blank_entry_cases udb10 P 2 p 2 (Z.of_nat i) x)) as S2.
    rewrite nth_in_range_lookup, Hg in S2 by assumption.
    rewrite Z2Nat.id in S2 by lia.
    specialize (S2 eq_refl HP (blank_entry_peak udb10 P 2 p P)). lia.
Qed.

Lemma npos_bound (w : mat) : mat_shape w -> (npos w <= Z.to_nat 28800)%nat.
Proof.
  intros Hs. destruct (mat_shape_inv w Hs) as (r0 & r1 & r2 & -> & H0 & H1 & H2).
  rewrite npos_three.
  pose proof (count_pos_le_length r0). pose proof (count_pos_le_length r1).
  pose proof (count_pos_le_length r2). lia.
Qed.

(** ** [peak_search]: the loop *)

Lemma Forall2_blank_all (udb10 : Q -> Q) (P : Q) (n p : Z) (Pr : Q -> Prop)
    (w : mat) :
  Pr 0%Q ->
  Forall (Forall Pr) w ->
  Forall (Forall Pr) (blank_all udb10 P n p w).
Proof.
  intros H0 Hw. unfold blank_all.
  apply Forall_forall. intros row Hrow.
  apply elem_of_lookup_imap in Hrow. destruct Hrow as (r & row0 & -> & Hr).
  apply Forall_forall. intros x Hx.
  apply elem_of_lookup_imap in Hx. destruct Hx as (c & x0 & -> & Hc).
  destruct (blank_entry_cases udb10 P n p (Z.of_nat r) (Z.of_nat c) x0)
    as [-> | ->]; [| exact H0].
  rewrite Forall_forall in Hw.
  assert (Hrow0 : Forall Pr row0).
  { apply Hw. apply list_elem_of_lookup. exists r. exact Hr. }
  rewrite Forall_forall in Hrow0. apply Hrow0.
  apply list_elem_of_lookup. exists c. exact Hc.
Qed.

Lemma mat_get_Forall (Pr : Q -> Prop) (w : mat) (n p : Z) :
  mat_shape w -> 0 <= n < 3 -> 0 <= p < 9600 ->
  Forall (Forall Pr) w -> Pr (mat_get w n p).
Proof.
  intros Hs Hn Hp Hw.
  destruct (mat_shape_inv w Hs) as (r0 & r1 & r2 & -> & H0 & H1 & H2).
  rewrite mat_get_three by assumption.
  apply List.Forall_cons_iff in Hw as [Hw0 Hw].
  apply List.Forall_cons_iff in Hw as [Hw1 Hw].
  apply List.Forall_cons_iff in Hw as [Hw2 _].
  assert (Hrow : forall row, length row = Z.to_nat 9600 -> Forall Pr row ->
                             Pr (nth (Z.to_nat p) row 0%Q)).
  { intros row Hl Hf. rewrite Forall_forall in Hf. apply Hf.
    apply list_elem_of_lookup. exists (Z.to_nat p).
    apply nth_in_range_lookup; assumption. }
  destruct (Z.eqb n 0); [auto |]. destruct (Z.eqb n 1); auto.
Qed.

Section PeakSearchLoop.
Variable udb10 : Q -> Q.
Variable Cell_default : Cell.
Variable xc_incoherent_collapsed_frq : list (list Z).
Variable Z_th1 : list Q.
Variable f_search_set : list Q.
Variable fc_requested_in : Q.
Variable fc_programmed_in : Q.
Variable xc_incoherent_single : vf3d.
Variable ds_comb_arm : Z.

Local Abbreviation iter :=
  (peak_iter udb10 Cell_default xc_incoherent_collapsed_frq Z_th1 f_search_set
     fc_requested_in fc_programmed_in xc_incoherent_single ds_comb_arm).
Local Abbreviation loop :=
  (peak_loop udb10 Cell_default xc_incoherent_collapsed_frq Z_th1 f_search_set
     fc_requested_in fc_programmed_in xc_incoherent_single ds_comb_arm).
Local Abbreviation search :=
  (peak_search udb10 Cell_default xc_incoherent_collapsed_frq Z_th1 f_search_set
     fc_requested_in fc_programmed_in xc_incoherent_single ds_comb_arm).
Local Abbreviation emitted :=
  (peak_emitted udb10 Cell_default xc_incoherent_collapsed_frq Z_th1 f_search_set
     fc_requested_in fc_programmed_in xc_incoherent_single ds_comb_arm).
Local Abbreviation iter_ref :=
  (peak_iter_ref udb10 Cell_default xc_incoherent_collapsed_frq Z_th1
     f_search_set fc_requested_in fc_programmed_in xc_incoherent_single
     ds_comb_arm).
Local Abbreviation loop_ref :=
  (peak_loop_ref udb10 Cell_default xc_incoherent_collapsed_frq Z_th1
     f_search_set fc_requested_in fc_programmed_in xc_incoherent_single
     ds_comb_arm).

Lemma peak_iter_ref_eq (w : mat) : mat_shape w -> iter w = iter_ref w.
Proof. intros Hs. rewrite peak_iter_blank_all_eq by assumption. reflexivity. Qed.

Lemma peak_iter_shape (w w' : mat) (cell : Cell) :
  mat_shape w -> iter w = Some (cell, w') -> mat_shape w'.
Proof.
  intros Hs H. apply peak_iter_some in H; [| assumption].
  destruct H as (P & n & p & _ & _ & _ & _ & ->).
  apply blank_all_shape. assumption.
Qed.

(** On matrices of the right shape the loop of the source and the loop
    written with [blank_all] agree. *)
Lemma peak_loop_blank_all (fuel : nat) :
  forall (w : mat) (cells : list Cell),
  mat_shape w -> loop fuel w cells = loop_ref fuel w cells.
Proof.
  induction fuel as [| fuel IH]; intros w cells Hs; [reflexivity |].
  cbn [peak_loop peak_loop_ref].
  rewrite <- peak_iter_ref_eq by assumption.
  destruct (iter w) as [[cell w'] |] eqn:E; [| reflexivity].
  apply IH. eapply peak_iter_shape; eassumption.
Qed.

(** The cells of a finished run are the cells pushed pass by pass. *)
Lemma peak_loop_emitted (fuel : nat) :
  forall (w : mat) (cells cells' : list Cell),
  loop fuel w cells = Some cells' ->
  exists n, cells' = cells ++ emitted n w.
Proof.
  induction fuel as [| fuel IH]; intros w cells cells' H; [discriminate |].
  cbn [peak_loop] in H.
  destruct (iter w) as [[cell w'] |] eqn:E.
  - apply IH in H. destruct H as (n & ->). exists (S n).
    cbn [peak_emitted]. rewrite E, <- app_assoc. reflexivity.
  - injection H as <-. exists 0%nat. rewrite app_nil_r. reflexivity.
Qed.

(** A pass that does not break finds a peak of power at least the
    threshold at its sample and leaves fewer positive entries. *)
Lemma peak_iter_decreases (w w' : mat) (cell : Cell) :
  mat_shape w ->
  (forall i, 0 <= i < 9600 -> (0 < vec_get Z_th1 i)%Q) ->
  iter w = Some (cell, w') ->
  (npos w' < npos w)%nat.
Proof.
  intros Hs Hth H. apply peak_iter_some in H; [| assumption].
  destruct H as (P & n & p & Hf & Hle & _ & _ & ->).
  destruct (find_peak_max w P n p Hs Hf) as (Hn & Hp & Hg & _).
  apply npos_blank_all_lt; try assumption.
  eapply Qlt_le_trans; [apply Hth; exact Hp | exact Hle].
Qed.

Lemma peak_loop_terminates_aux (k : nat) :
  forall (w : mat) (cells : list Cell),
  mat_shape w ->
  (forall i, 0 <= i < 9600 -> (0 < vec_get Z_th1 i)%Q) ->
  (npos w < k)%nat ->
  exists cells',
    forall fuel, (k <= fuel)%nat -> loop fuel w cells = Some cells'.
Proof.
  induction k as [| k IH]; intros w cells Hs Hth Hk; [lia |].
  destruct (iter w) as [[cell w'] |] eqn:E.
  - pose proof (peak_iter_decreases w w' cell Hs Hth E) as Hd.
    destruct (IH w' (cells ++ [cell])
                 (peak_iter_shape w w' cell Hs E) Hth ltac:(lia))
      as (cells' & Hc).
    exists cells'. intros fuel Hf.
    destruct fuel as [| fuel]; [lia |].
    cbn [peak_loop]. rewrite E. apply Hc. lia.
  - exists cells. intros fuel Hf.
    destruct fuel as [| fuel]; [lia |].
    cbn [peak_loop]. rewrite E. reflexivity.
Qed.

Lemma peak_loop_length (k : nat) :
  forall (w : mat) (cells cells' : list Cell),
  loop (S k) w cells = Some cells' ->
  (length cells' <= length cells + k)%nat.
Proof.
  induction k as [| k IH]; intros w cells cells' H; cbn [peak_loop] in H.
  - destruct (iter w) as [[cell w'] |]; [discriminate |].
    injection H as <-. lia.
  - destruct (iter w) as [[cell w'] |] eqn:E.
    + apply IH in H. rewrite length_app in H. cbn [length] in H. lia.
    + injection H as <-. lia.
Qed.

(** X4.  On a 3 x 9600 power matrix and a threshold vector whose 9600
    entries are strictly positive the loop of [peak_search]
    terminates: it breaks after at most as many pushes as the matrix has
    positive entries, hence within 28801 passes, and every larger bound
    on the passes gives the same list. *)
Theorem peak_search_terminates (w : mat) (cells : list Cell) :
  mat_shape w ->
  (forall i, 0 <= i < 9600 -> (0 < vec_get Z_th1 i)%Q) ->
  exists cells',
    (forall fuel, (npos w < fuel)%nat -> search fuel w cells = Some cells')
    /\ search (Z.to_nat 28801) w cells = Some cells'
    /\ (length cells' <= length cells + npos w)%nat.
Proof.
  intros Hs Hth.
  destruct (peak_loop_terminates_aux (S (npos w)) w cells Hs Hth ltac:(lia))
    as (cells' & Hc).
  exists cells'. pose proof (npos_bound w Hs) as Hb.
  split; [intros fuel Hf; apply Hc; lia |].
  split; [apply Hc; lia |].
  apply (peak_loop_length (npos w) w cells cells'). apply Hc. lia.
Qed.
Lemma peak_emitted_sorted (n : nat) :
  forall w : mat,
  mat_shape w -> Forall (Forall (fun x => (0 <= x)%Q)) w ->
  StronglySorted pss_pow_ge (emitted n w)
  /\ forall B, Forall (Forall (fun x => (x <= B)%Q)) w ->
               Forall (fun c => (pss_pow c <= B)%Q) (emitted n w).
Proof.
  induction n as [| n IH]; intros w Hs Hnn; cbn [peak_emitted].
  - split; [constructor | intros; constructor].
  - destruct (iter w) as [[cell w'] |] eqn:E;
      [| split; [constructor | intros; constructor]].
    pose proof (peak_iter_shape w w' cell Hs E) as Hs'.
    destruct (peak_iter_some udb10 Cell_default xc_incoherent_collapsed_frq
                Z_th1 f_search_set fc_requested_in fc_programmed_in
                xc_incoherent_single ds_comb_arm w w' cell Hs E)
      as (P & k & p & Hf & _ & Hpow & _ & ->).
    destruct (find_peak_max w P k p Hs Hf) as (Hk & Hp & Hg & Hmax).
    assert (HP0 : (0 <= P)%Q).
    { rewrite <- Hg. apply (mat_get_Forall (fun x => (0 <= x)%Q)); assumption. }
    assert (Hnn' : Forall (Forall (fun x => (0 <= x)%Q)) (blank_all udb10 P k p w)).
    { apply Forall2_blank_all; [apply Qle_refl | assumption]. }
    assert (Hmax' : Forall (Forall (fun x => (x <= P)%Q)) (blank_all udb10 P k p w)).
    { apply Forall2_blank_all; assumption. }
    destruct (IH _ Hs' Hnn') as (Hsorted & Hbound).
    split.
    + constructor; [exact Hsorted |].
      specialize (Hbound P Hmax').
      eapply Forall_impl; [exact Hbound |].
      intros c Hc. unfold pss_pow_ge. rewrite Hpow. exact Hc.
    + intros B HB. constructor.
      * rewrite Hpow, <- Hg.
        apply (mat_get_Forall (fun x => (x <= B)%Q)); assumption.
      * specialize (Hbound P Hmax').
        eapply Forall_impl; [exact Hbound |].
        intros c Hc. cbv beta in *. eapply Qle_trans; [exact Hc |].
        rewrite <- Hg.
        apply (mat_get_Forall (fun x => (x <= B)%Q)); assumption.
Qed.

(** X5.  On a 3 x 9600 matrix of non-negative powers the cells come out
    in non-increasing order of [pss_pow]: each cell pushed has power at
    least that of every cell pushed after it, after any number of
    passes and in the list of a finished run.  (Equal powers do occur:
    the order is not strict.) *)
Theorem peak_search_nonincreasing (w : mat) :
  mat_shape w -> Forall (Forall (fun x => (0 <= x)%Q)) w ->
  (forall n, StronglySorted pss_pow_ge (emitted n w))
  /\ (forall fuel cells, search fuel w [] = Some cells ->
                         StronglySorted pss_pow_ge cells).
Proof.
  intros Hs Hnn. split.
  - intros n. apply (peak_emitted_sorted n w Hs Hnn).
  - intros fuel cells H. apply peak_loop_emitted in H. destruct H as (n & ->).
    cbn [app]. apply (peak_emitted_sorted n w Hs Hnn).
Qed.

Lemma peak_iter_no_break (w : mat) :
  mat_shape w -> Forall (Forall (fun x => (0 <= x)%Q)) w ->
  (forall i, 0 <= i < 9600 -> (vec_get Z_th1 i <= 0)%Q) ->
  exists cell w',
    iter w = Some (cell, w')
    /\ mat_shape w' /\ Forall (Forall (fun x => (0 <= x)%Q)) w'.
Proof.
  intros Hs Hnn Hth. rewrite peak_iter_blank_all_eq by assumption.
  destruct (find_peak w) as [[P n] p] eqn:Hf.
  destruct (find_peak_max w P n p Hs Hf) as (Hn & Hp & Hg & _).
  assert (HP0 : (0 <= P)%Q).
  { rewrite <- Hg. apply (mat_get_Forall (fun x => (0 <= x)%Q)); assumption. }
  assert (Hb : Qltb P (vec_get Z_th1 p) = false).
  { apply Qltb_ge. eapply Qle_trans; [apply Hth; exact Hp | exact HP0]. }
  rewrite Hb. eexists. eexists. split; [reflexivity |].
  split; [apply blank_all_shape; assumption |].
  apply Forall2_blank_all; [apply Qle_refl | assumption].
Qed.

(** X6.  When no threshold is positive the loop never breaks on a
    3 x 9600 matrix of non-negative powers: the largest peak, at worst
    an entry already cleared to 0, is never below its threshold, so
    every pass pushes one more cell and no bound on the passes yields a
    result. *)
Theorem peak_search_never_breaks (w : mat) (cells : list Cell) (fuel : nat) :
  mat_shape w -> Forall (Forall (fun x => (0 <= x)%Q)) w ->
  (forall i, 0 <= i < 9600 -> (vec_get Z_th1 i <= 0)%Q) ->
  search fuel w cells = None
  /\ length (emitted fuel w) = fuel.
Proof.
  intros Hs Hnn Hth. unfold peak_search.
  revert w cells Hs Hnn.
  induction fuel as [| fuel IH]; intros w cells Hs Hnn; [split; reflexivity |].
  cbn [peak_loop peak_emitted].
  destruct (peak_iter_no_break w Hs Hnn Hth) as (cell & w' & E & Hs' & Hnn').
  rewrite E. destruct (IH w' (cells ++ [cell]) Hs' Hnn') as (H1 & H2).
  split; [exact H1 | cbn [length]; rewrite H2; reflexivity].
Qed.
End PeakSearchLoop.

(** ** [peak_search]: the example matrices *)

Lemma zero_mat_shape : mat_shape zero_mat.
Proof.
  apply mat_shape_three; unfold zero_row; apply repeat_length.
Qed.

Lemma mat_set_shape (w : mat) (r c : Z) (x : Q) :
  mat_shape w -> mat_shape (mat_set w r c x).
Proof.
  intros [Hl Hf]. unfold mat_set. split; [rewrite length_alter; exact Hl |].
  apply Forall_forall. intros row Hrow.
  apply list_elem_of_lookup in Hrow. destruct Hrow as (i & Hi).
  rewrite Forall_forall in Hf.
  rewrite list_lookup_alter in Hi.
  destruct (decide (Z.to_nat r = i)) as [-> | Hne].
  - apply fmap_Some in Hi. destruct Hi as (row0 & Hrow0 & ->).
    rewrite length_insert. apply Hf.
    apply list_elem_of_lookup. eexists. exact Hrow0.
  - apply Hf. apply list_elem_of_lookup. eexists. exact Hi.
Qed.

Lemma mat_set_Forall (Pr : Q -> Prop) (w : mat) (r c : Z) (x : Q) :
  Pr x -> Forall (Forall Pr) w -> Forall (Forall Pr) (mat_set w r c x).
Proof.
  intros Hx Hw. unfold mat_set.
  apply Forall_forall. intros row Hrow.
  apply list_elem_of_lookup in Hrow. destruct Hrow as (i & Hi).
  rewrite Forall_forall in Hw.
  rewrite list_lookup_alter in Hi.
  destruct (decide (Z.to_nat r = i)) as [-> | Hne].
  - apply fmap_Some in Hi. destruct Hi as (row0 & Hrow0 & ->).
    apply Forall_insert; [| exact Hx].
    apply Hw. apply list_elem_of_lookup. eexists. exact Hrow0.
  - apply Hw. apply list_elem_of_lookup. eexists. exact Hi.
Qed.

Lemma zero_row_nonneg : Forall (fun x => (0 <= x)%Q) zero_row.
Proof.
  apply Forall_forall. intros x Hx. apply list_elem_of_In in Hx.
  apply repeat_spec in Hx. subst x. apply Qle_refl.
Qed.

Lemma zero_mat_nonneg : Forall (Forall (fun x => (0 <= x)%Q)) zero_mat.
Proof.
  unfold zero_mat.
  apply List.Forall_cons; [apply zero_row_nonneg |].
  apply List.Forall_cons; [apply zero_row_nonneg |].
  apply List.Forall_cons; [apply zero_row_nonneg |].
  apply List.Forall_nil.
Qed.

Lemma peer_mat_shape : mat_shape peer_mat.
Proof. unfold peer_mat. do 2 apply mat_set_shape. apply zero_mat_shape. Qed.

Lemma peer_mat_nonneg : Forall (Forall (fun x => (0 <= x)%Q)) peer_mat.
Proof.
  unfold peer_mat.
  do 2 (apply mat_set_Forall; [discriminate |]). apply zero_mat_nonneg.
Qed.

Lemma tie_mat_shape : mat_shape tie_mat.
Proof. unfold tie_mat. do 2 apply mat_set_shape. apply zero_mat_shape. Qed.

Lemma one_th_positive (i : Z) : 0 <= i < 9600 -> (0 < vec_get one_th i)%Q.
Proof.
  intros Hi. unfold vec_get, one_th. rewrite nth_repeat_lt by lia. reflexivity.
Qed.

Lemma zero_th_nonpositive (i : Z) : 0 <= i < 9600 -> (vec_get zero_th i <= 0)%Q.
Proof.
  intros Hi. unfold vec_get, zero_th. rewrite nth_repeat_lt by lia.
  apply Qle_refl.
Qed.

Lemma find_peak_spec_witness :
  0 <= 0 < 3 /\ 0 <= 1000 < 9600
  /\ mat_get peer_mat 0 1000 = 100%Q
  /\ Forall (Forall (fun x => (x <= 100)%Q)) peer_mat.
Proof.
  apply (find_peak_spec peer_mat 100%Q 0 1000 peer_mat_shape).
  vm_compute. reflexivity.
Defined.

Lemma peak_iter_blank_all_witness :
  exists cell,
    peak_iter udb10_model example_cell zero_frq one_th [0%Q] 0%Q 0%Q
              one_single 2 peer_mat
    = Some (cell, blank_all udb10_model 100%Q 0 1000 peer_mat)
    /\ pss_pow cell = 100%Q /\ n_id_2 cell = 0
    /\ mat_get (blank_all udb10_model 100%Q 0 1000 peer_mat) 0 1000 = 0%Q
    /\ mat_get (blank_all udb10_model 100%Q 0 1000 peer_mat) 1 1000 = 50%Q.
Proof.
  rewrite (peak_iter_blank_all udb10_model example_cell zero_frq one_th [0%Q]
             0%Q 0%Q one_single 2 peer_mat peer_mat_shape).
  replace (find_peak peer_mat) with (100%Q, 0, 1000)
    by (vm_compute; reflexivity).
  eexists. split; [reflexivity |].
  repeat split; vm_compute; reflexivity.
Defined.

Lemma peak_search_terminates_witness :
  exists cells',
    peak_search udb10_model example_cell zero_frq one_th [0%Q] 0%Q 0%Q
                one_single 2 (Z.to_nat 28801) peer_mat [] = Some cells'
    /\ (length cells' <= 0 + npos peer_mat)%nat.
Proof.
  destruct (peak_search_terminates udb10_model example_cell zero_frq one_th
              [0%Q] 0%Q 0%Q one_single 2 peer_mat [] peer_mat_shape
              one_th_positive) as (cells' & _ & H & Hl).
  exists cells'. split; assumption.
Defined.

Lemma peak_search_nonincreasing_witness :
  StronglySorted pss_pow_ge
    (peak_emitted udb10_model example_cell zero_frq one_th [0%Q] 0%Q 0%Q
                  one_single 2 3 peer_mat).
Proof.
  apply (peak_search_nonincreasing udb10_model example_cell zero_frq one_th
           [0%Q] 0%Q 0%Q one_single 2 peer_mat peer_mat_shape peer_mat_nonneg).
Defined.

Lemma peak_search_never_breaks_witness :
  peak_search udb10_model example_cell zero_frq zero_th [0%Q] 0%Q 0%Q
              one_single 2 5 zero_mat [] = None
  /\ length (peak_emitted udb10_model example_cell zero_frq zero_th [0%Q]
               0%Q 0%Q one_single 2 5 zero_mat) = 5%nat.
Proof.
  apply (peak_search_never_breaks udb10_model example_cell zero_frq zero_th
           [0%Q] 0%Q 0%Q one_single 2 zero_mat [] 5 zero_mat_shape
           zero_mat_nonneg zero_th_nonpositive).
Defined.

(** ** [peak_search]: the refined sample index *)

Lemma itpp_mod_9600 (t : Z) : itpp_mod t 9600 = t mod 9600.
Proof.
  unfold itpp_mod. simpl. pose proof (Z_div_mod_eq_full t 9600). lia.
Qed.

Lemma refine_wrap (t : Z) : wrap_uint16 (itpp_mod t 9600) = t mod 9600.
Proof.
  rewrite itpp_mod_9600. unfold wrap_uint16.
  pose proof (Z.mod_pos_bound t 9600 ltac:(lia)).
  apply Z.mod_small. lia.
Qed.

Lemma refine_range_underflow (arm p : Z) :
  0 <= arm <= 255 -> 0 <= p < arm -> refine_range arm p = [].
Proof.
  intros Ha Hp. unfold refine_range, wrap_uint16.
  replace ((p - arm) mod 65536) with (p - arm + 65536).
  - replace (Z.to_nat (p + arm - (p - arm + 65536) + 1)) with 0%nat by lia.
    reflexivity.
  - apply (Z.mod_unique (p - arm) 65536 (-1)); lia.
Qed.

Lemma refine_range_regular (arm p : Z) :
  0 <= arm <= 255 -> arm <= p < 9600 ->
  refine_range arm p = zrange (p - arm) (Z.to_nat (2 * arm + 1)).
Proof.
  intros Ha Hp. unfold refine_range, wrap_uint16.
  rewrite Z.mod_small by lia. f_equal. lia.
Qed.

Lemma refine_fold_index (single : vf3d) (n foi : Z) (ts : list Z) :
  forall best : option Q * Z,
  let r :=
    fold_left (fun (best : option Q * Z) t =>
        let t_wrap := wrap_uint16 (itpp_mod t 9600) in
        let x := vf3d_get single n t_wrap foi in
        match fst best with
        | None => (Some x, t_wrap)
        | Some best_pow => if Qltb best_pow x then (Some x, t_wrap) else best
        end) ts best in
  (snd r = snd best /\ (ts = [] \/ fst best <> None))
  \/ exists t, In t ts /\ snd r = t mod 9600.
Proof.
  induction ts as [| t ts IH]; intros best; cbn [fold_left]; cbv zeta.
  - left. split; [reflexivity | left; reflexivity].
  - match goal with
    | |- context [fold_left ?f ts ?b] =>
        specialize (IH b); cbv zeta in IH; set (r := fold_left f ts b) in *
    end.
    destruct IH as [[He Hc] | (t' & Hin & He)].
    + destruct (fst best) as [b |] eqn:Eb.
      * destruct (Qltb b _).
        -- right. exists t. split; [left; reflexivity |].
           rewrite He. cbn [snd]. apply refine_wrap.
        -- left. split; [exact He | right; discriminate].
      * right. exists t. split; [left; reflexivity |].
        rewrite He. cbn [snd]. apply refine_wrap.
    + right. exists t'. split; [right; exact Hin | exact He].
Qed.

Lemma refine_peak_index (frq : list (list Z)) (single : vf3d)
    (arm n p : Z) :
  0 <= arm <= 255 -> 0 <= p < 9600 ->
  (p < arm -> refine_peak frq single arm n p = (None, -1))
  /\ (arm <= p ->
      exists t, p - arm <= t <= p + arm
                /\ snd (refine_peak frq single arm n p) = t mod 9600
                /\ 0 <= snd (refine_peak frq single arm n p) < 9600).
Proof.
  intros Ha Hp. split; intros Hc; unfold refine_peak.
  - rewrite refine_range_underflow by lia. reflexivity.
  - rewrite refine_range_regular by lia.
    destruct (refine_fold_index single n (imat_get frq n p)
                (zrange (p - arm) (Z.to_nat (2 * arm + 1))) (None, -1))
      as [[_ [Hnil | Hne]] | (t & Hin & He)]; cbv zeta in *.
    + exfalso. unfold zrange in Hnil.
      apply (f_equal (@length Z)) in Hnil.
      rewrite length_map, length_seq in Hnil. simpl in Hnil. lia.
    + exfalso. apply Hne. reflexivity.
    + exists t. apply In_zrange in Hin.
      split; [lia |]. split; [exact He |].
      rewrite He. apply Z.mod_pos_bound. lia.
Qed.

(** X7.  The sample index recorded in a pushed cell.  The refinement
    loop counts with a [uint16] that starts at [peak_ind-ds_comb_arm]:
    for a peak within the first [ds_comb_arm] samples the start wraps
    to a value near 65535, the loop body never runs and [best_ind]
    keeps its initial value -1; for every other peak the index is one
    of the [2*ds_comb_arm+1] samples around [peak_ind], taken modulo
    9600, hence in 0..9599. *)
Theorem make_cell_ind (Cell_default : Cell) (frq : list (list Z))
    (f_search_set : list Q) (fc_req fc_prog : Q) (single : vf3d)
    (arm : Z) (P : Q) (n p : Z) :
  0 <= arm <= 255 -> 0 <= p < 9600 ->
  let cell :=
    make_cell Cell_default frq f_search_set fc_req fc_prog single arm P n p in
  (p < arm -> ind cell = -1)
  /\ (arm <= p ->
      exists t, p - arm <= t <= p + arm
                /\ ind cell = t mod 9600 /\ 0 <= ind cell < 9600).
Proof.
  intros Ha Hp cell.
  change (ind cell) with (snd (refine_peak frq single arm n p)).
  destruct (refine_peak_index frq single arm n p Ha Hp) as [H1 H2].
  split; [intros Hc; rewrite (H1 Hc); reflexivity | exact H2].
Qed.

Lemma make_cell_ind_witness :
  ind (make_cell example_cell zero_frq [0%Q] 0 0 one_single 2 100 0 1) = -1
  /\ exists t, 1000 - 2 <= t <= 1000 + 2
       /\ ind (make_cell example_cell zero_frq [0%Q] 0 0 one_single 2 100 0 1000)
          = t mod 9600
       /\ 0 <= ind (make_cell example_cell zero_frq [0%Q] 0 0 one_single 2
                      100 0 1000) < 9600.
Proof.
  split.
  - apply (make_cell_ind example_cell zero_frq [0%Q] 0 0 one_single 2 100 0 1);
      lia.
  - apply (make_cell_ind example_cell zero_frq [0%Q] 0 0 one_single 2 100 0
             1000); lia.
Defined.

(** ** [decode_mib]: exhaustion, invariants, CRC masks *)

Lemma mib_hypotheses_list :
  mib_hypotheses
  = [(0, 1); (0, 2); (0, 4); (1, 1); (1, 2); (1, 4);
     (2, 1); (2, 2); (2, 4); (3, 1); (3, 2); (3, 4)].
Proof. reflexivity. Qed.

(** X8.  Blind-decode exhaustion: when the CRC check fails for each of
    the twelve hypotheses (frame-timing guess 0..3, port count 1, 2, 4)
    [decode_mib] returns its input cell unchanged; for a cell whose
    cyclic prefix is neither normal nor extended it fails in
    [n_symb_dl()] before trying anything. *)
Theorem decode_mib_exhausted (lte_calc_crc16 : list bool -> list bool)
    (pbch_c_est : Cell -> Z -> Z -> list bool) (cell : Cell) :
  (forall g np, 0 <= g <= 3 -> np = 1 \/ np = 2 \/ np = 4 ->
                crc_check lte_calc_crc16 pbch_c_est cell g np = false) ->
  decode_mib lte_calc_crc16 pbch_c_est cell
  = match cp_type cell with
    | cp_type_t.UNKNOWN => None
    | _ => Some cell
    end.
Proof.
  intros H. unfold decode_mib, n_symb_dl.
  assert (Hn : decode_mib_guesses lte_calc_crc16 pbch_c_est cell cell
                 (zrange 0 4) = None).
  { rewrite decode_mib_guesses_first_pass.
    unfold first_pass. rewrite mib_hypotheses_list. cbn [List.find fst snd].
    rewrite !H by lia. reflexivity. }
  destruct (cp_type cell); rewrite ?Hn; reflexivity.
Qed.

Lemma decode_mib_exhausted_witness :
  decode_mib (fun _ => true :: repeat false 15) example_chain example_cell
  = Some example_cell.
Proof.
  apply (decode_mib_exhausted (fun _ => true :: repeat false 15) example_chain
           example_cell).
  intros g np _ [-> | [-> | ->]]; vm_compute; reflexivity.
Defined.




Lemma take_drop_mask (a b : list bool) :
  length a = 16%nat \/ b = [] ->
  (length a <= 16)%nat ->
  firstn 16 (a ++ b) = a /\ skipn 16 (a ++ b) = b.
Proof.
  intros [Hl | ->] Hle.
  - split; [apply take_app_length' | apply drop_app_length'];
      symmetry; exact Hl.
  - rewrite app_nil_r.
    split; [apply take_ge | apply drop_ge]; exact Hle.
Qed.

(** X10.  The CRC masks of the port counts.  Applying a mask twice
    gives the CRC back; one port leaves the CRC as it is; and on a CRC
    of 16 bits the masks of 1, 2 and 4 ports give three different bit
    patterns, so one decoded block cannot match for two port counts. *)
Theorem crc_mask_involutive_distinct (crc : list bool) (np : Z) :
  crc_mask np (crc_mask np crc) = crc
  /\ crc_mask 1 crc = crc
  /\ (length crc = 16%nat ->
      crc_mask 1 crc <> crc_mask 2 crc
      /\ crc_mask 1 crc <> crc_mask 4 crc
      /\ crc_mask 2 crc <> crc_mask 4 crc).
Proof.
  split; [| split; [reflexivity |]].
  - unfold crc_mask. destruct (Z.eqb np 2).
    + destruct (take_drop_mask (map negb (firstn 16 crc)) (skipn 16 crc))
        as [Ht Hd].
      { rewrite length_map.
        destruct (Nat.le_gt_cases 16 (length crc)) as [Hl | Hl].
        - left. apply length_take_le. exact Hl.
        - right. apply drop_ge. lia. }
      { rewrite length_map, length_take. apply Nat.le_min_l. }
      rewrite Ht, Hd, map_map.
      rewrite (map_ext _ (fun b => b)) by apply negb_involutive.
      rewrite map_id. apply firstn_skipn.
    + destruct (Z.eqb np 4); [| reflexivity].
      apply list_eq. intros i. rewrite !list_lookup_imap.
      destruct (crc !! i) as [b |]; [| reflexivity]. cbn.
      destruct (Nat.odd i); [rewrite negb_involutive |]; reflexivity.
  - intros Hl.
    destruct crc as [| b0 [| b1 crc]]; try (simpl in Hl; lia).
    unfold crc_mask. cbn.
    repeat split; intros H; injection H; destruct b0, b1; discriminate.
Qed.

Lemma crc_mask_involutive_distinct_witness :
  crc_mask 1 (repeat false 16) <> crc_mask 2 (repeat false 16)
  /\ crc_mask 1 (repeat false 16) <> crc_mask 4 (repeat false 16)
  /\ crc_mask 2 (repeat false 16) <> crc_mask 4 (repeat false 16).
Proof.
  apply (crc_mask_involutive_distinct (repeat false 16) 1). reflexivity.
Defined.

(** ** [pbch_extract]: where it reads *)

Lemma re_beforeb_spec (a b : Z * Z) : re_beforeb a b = true -> re_before a b.
Proof.
  unfold re_beforeb, re_before. intros H.
  apply orb_true_iff in H. destruct H as [H | H].
  - left. apply Z.ltb_lt. exact H.
  - right. apply andb_true_iff in H. destruct H as [H1 H2].
    split; [apply Z.eqb_eq; exact H1 | apply Z.ltb_lt; exact H2].
Qed.

Lemma re_before_trans (a b c : Z * Z) :
  re_before a b -> re_before b c -> re_before a c.
Proof. unfold re_before. lia. Qed.

Lemma chainb_sorted (l : list (Z * Z)) :
  chainb l = true -> StronglySorted re_before l.
Proof.
  intros H. apply Sorted_StronglySorted.
  - intros a b c. apply re_before_trans.
  - induction l as [| a l IH]; [constructor |].
    destruct l as [| b l]; [repeat constructor |].
    cbn [chainb] in H. apply andb_true_iff in H. destruct H as [H1 H2].
    constructor; [apply IH; exact H2 |].
    constructor. apply re_beforeb_spec. exact H1.
Qed.

Lemma StronglySorted_re_before_NoDup (l : list (Z * Z)) :
  StronglySorted re_before l -> List.NoDup l.
Proof.
  induction 1 as [| a l Hs IH Hf]; constructor; [| exact IH].
  intros Hin. rewrite List.Forall_forall in Hf. specialize (Hf a Hin).
  unfold re_before in Hf. lia.
Qed.

(** X11.  Where [pbch_extract] reads.  For a cell with normal or
    extended cyclic prefix every extracted resource element lies inside
    the four-frame grid that [decode_mib] passes
    ([3*10*2*n_symb_dl+2*n_symb_dl] OFDM symbols by 72 subcarriers), in
    one of the first four symbols of the second slot of a frame; the
    elements are visited in strictly increasing (symbol, subcarrier)
    order, so none is extracted twice. *)
Theorem pbch_positions_in_grid (cell : Cell) (nsd : Z) :
  n_symb_dl cell = Some nsd ->
  let ps := pbch_positions (n_id_cell cell mod 3) nsd in
  Forall (fun p => re_in_pbch nsd p = true) ps
  /\ StronglySorted re_before ps
  /\ List.NoDup ps.
Proof.
  intros Hn ps.
  assert (H : forallb (re_in_pbch nsd) ps = true /\ chainb ps = true).
  { unfold ps. clear ps.
    pose proof (Z.mod_pos_bound (n_id_cell cell) 3 ltac:(lia)) as Hb.
    assert (Hc : n_id_cell cell mod 3 = 0 \/ n_id_cell cell mod 3 = 1
                 \/ n_id_cell cell mod 3 = 2) by lia.
    unfold n_symb_dl in Hn.
    destruct (cp_type cell); inversion Hn; subst nsd;
      destruct Hc as [-> | [-> | ->]]; split; vm_compute; reflexivity. }
  destruct H as [Hb Hc].
  split; [| split].
  - apply Forall_forall. intros p Hp.
    rewrite forallb_forall in Hb. apply Hb. apply list_elem_of_In. exact Hp.
  - apply chainb_sorted. exact Hc.
  - apply StronglySorted_re_before_NoDup. apply chainb_sorted. exact Hc.
Qed.

Lemma pbch_positions_in_grid_witness :
  List.NoDup (pbch_positions (n_id_cell example_cell mod 3) 7)
  /\ length (pbch_positions (n_id_cell example_cell mod 3) 7) = 960%nat.
Proof.
  split.
  - apply (pbch_positions_in_grid example_cell 7 eq_refl).
  - vm_compute. reflexivity.
Defined.

(** ** [xc_peak_freq] *)

Lemma zrange_snoc (lo : Z) (n : nat) :
  zrange lo (S n) = zrange lo n ++ [lo + Z.of_nat n].
Proof.
  unfold zrange. rewrite seq_S, map_app. reflexivity.
Qed.

Lemma length_zrange (lo : Z) (n : nat) : length (zrange lo n) = n.
Proof. unfold zrange. rewrite length_map. apply length_seq. Qed.

Lemma nth_map_zrange {A : Type} (f : Z -> A) (n : nat) (k : Z) (d : A) :
  0 <= k < Z.of_nat n ->
  nth (Z.to_nat k) (map f (zrange 0 n)) d = f k.
Proof.
  intros Hk. unfold zrange. rewrite map_map.
  rewrite (nth_indep _ d (f (0 + Z.of_nat 0))) by (rewrite length_map, length_seq; lia).
  rewrite (map_nth (fun i => f (0 + Z.of_nat i)) (seq 0 n) 0%nat).
  rewrite seq_nth by lia. f_equal. lia.
Qed.




(** ** [del_oob] *)

Lemma del_oob_loop_spec (post : list Z) :
  forall (fuel : nat) (pre : list Z),
  (length post < fuel)%nat ->
  del_oob_loop fuel (Z.of_nat (length pre)) (pre ++ post)
  = Some (pre ++ List.filter in_bounds post).
Proof.
  induction post as [| x post IH]; intros fuel pre Hf;
    (destruct fuel as [| fuel]; [simpl in Hf; lia |]); cbn [del_oob_loop].
  - cbn [List.filter]. rewrite !app_nil_r.
    replace (Z.ltb (Z.of_nat (length pre)) (Z.of_nat (length pre))) with false
      by (symmetry; apply Z.ltb_irrefl).
    reflexivity.
  - replace (Z.ltb (Z.of_nat (length pre)) (Z.of_nat (length (pre ++ x :: post))))
      with true
      by (symmetry; apply Z.ltb_lt; rewrite length_app; simpl; lia).
    rewrite Nat2Z.id. cbv zeta.
    rewrite app_nth2 by lia. rewrite Nat.sub_diag. cbn [nth List.filter].
    assert (Hb : in_bounds x = negb (Z.ltb x 0 || Z.gtb x 11)).
    { unfold in_bounds. rewrite Z.gtb_ltb.
      destruct (Z.ltb_spec x 0), (Z.ltb_spec 11 x), (Z.leb_spec 0 x),
               (Z.leb_spec x 11); try reflexivity; lia. }
    rewrite Hb. destruct (Z.ltb x 0 || Z.gtb x 11); cbn [negb].
    + rewrite delete_middle. apply IH. simpl in Hf. lia.
    + replace (Z.of_nat (length pre) + 1) with (Z.of_nat (length (pre ++ [x])))
        by (rewrite length_app; simpl; lia).
      replace (pre ++ x :: post) with ((pre ++ [x]) ++ post)
        by (rewrite <- app_assoc; reflexivity).
      rewrite IH by (simpl in Hf; lia).
      rewrite <- app_assoc. reflexivity.
Qed.

(** X13.  [del_oob] terminates within [length v + 1] passes of its
    loop and returns exactly the entries of [v] that lie in 0..11, in
    their original order; entries that are in range are never
    removed. *)
Theorem del_oob_filter (v : list Z) (fuel : nat) :
  (length v < fuel)%nat ->
  del_oob fuel v = Some (List.filter in_bounds v).
Proof.
  intros Hf. apply (del_oob_loop_spec v fuel [] Hf).
Qed.

Lemma del_oob_filter_witness :
  del_oob 4 [-1; 0; 12] = Some [0].
Proof. apply (del_oob_filter [-1; 0; 12] 4). simpl. lia. Defined.

(** X14.  The divisor of the channel-estimate filter.  For each of the
    12 raw estimates of an RS symbol, [chan_est] averages between 2 and
    9 values ([ce_filt(t,k)=total/n_total] never divides by zero, even
    with a single RS symbol); away from the edges, with a previous and
    a next RS symbol and staggered rows ([shift(0) != shift(1)]), the
    count is 7, the hexagonal stencil of the comment. *)
Theorem ce_filt_n_total_range (shift0 shift1 : Z) (leftmost : bool)
    (t n_rs_ofdm k : Z) :
  0 <= k <= 11 ->
  exists n,
    ce_filt_n_total shift0 shift1 leftmost t n_rs_ofdm k = Some n
    /\ 2 <= n <= 9
    /\ (1 <= k <= 10 -> shift0 <> shift1 -> t <> 0 -> t <> n_rs_ofdm - 1 ->
        n = 7).
Proof.
  intros Hk. unfold ce_filt_n_total.
  assert (Hc : k = 0 \/ k = 1 \/ k = 2 \/ k = 3 \/ k = 4 \/ k = 5 \/ k = 6
               \/ k = 7 \/ k = 8 \/ k = 9 \/ k = 10 \/ k = 11) by lia.
  destruct (Z.eqb_spec shift0 shift1) as [Hs | Hs];
    destruct (Z.eqb_spec t 0) as [Ht0 | Ht0];
    destruct (Z.eqb_spec t (n_rs_ofdm - 1)) as [Ht1 | Ht1];
    destruct leftmost;
    repeat (destruct Hc as [-> | Hc]); try subst k;
    (eexists; split; [vm_compute; reflexivity |];
     split; [lia |]; intros; first [lia | congruence]).
Qed.

Lemma ce_filt_n_total_range_witness :
  exists n, ce_filt_n_total 0 3 true 5 40 0 = Some n /\ 2 <= n <= 9.
Proof.
  destruct (ce_filt_n_total_range 0 3 true 5 40 0 ltac:(lia))
    as (n & H1 & H2 & _).
  exists n. split; assumption.
Defined.

(** ** [sp_est] *)

Lemma qsum_snoc (g : Z -> Q) (n : nat) :
  fold_left (fun acc i => acc + g i)%Q (zrange 0 (S n)) 0%Q
  = (fold_left (fun acc i => acc + g i)%Q (zrange 0 n) 0%Q
     + g (0 + Z.of_nat n)%Z)%Q.
Proof. rewrite zrange_snoc, fold_left_app. reflexivity. Qed.

Lemma qsum_shift (n : nat) :
  forall g : Z -> Q,
  (fold_left (fun acc i => acc + g i)%Q (zrange 0 (S n)) 0%Q
   == g 0%Z + fold_left (fun acc i => acc + g (i + 1)%Z)%Q (zrange 0 n) 0%Q)%Q.
Proof.
  induction n as [| n IH]; intros g.
  - unfold zrange. cbn [seq map fold_left].
    change (0 + Z.of_nat 0) with 0. ring.
  - rewrite qsum_snoc, IH, qsum_snoc.
    replace (0 + Z.of_nat (S n)) with (0 + Z.of_nat n + 1) by lia. ring.
Qed.

Lemma qsum_nonneg (g : Z -> Q) (n : nat) :
  (forall i, 0 <= g i)%Q ->
  (0 <= fold_left (fun acc i => acc + g i)%Q (zrange 0 n) 0%Q)%Q.
Proof.
  intros Hg. induction n as [| n IH]; [apply Qle_refl |].
  rewrite qsum_snoc.
  replace 0%Q with (0 + 0)%Q at 1 by reflexivity.
  apply Qplus_le_compat; [exact IH | apply Hg].
Qed.

Lemma Qmul_self_nonneg (a : Q) : (0 <= a * a)%Q.
Proof. unfold Qle. simpl. rewrite Z.mul_1_r. apply Z.square_nonneg. Qed.

Lemma pow2_nonneg (x : cplx) : (0 <= pow2 x)%Q.
Proof.
  unfold pow2.
  replace 0%Q with (0 + 0)%Q by reflexivity.
  apply Qplus_le_compat; apply Qmul_self_nonneg.
Qed.

Lemma window_power_step (capbuf : list cplx) (t : Z) :
  (window_power capbuf (t + 1)
   == window_power capbuf t - pow2 (cvec_get capbuf t)
      + pow2 (cvec_get capbuf (t + 274)))%Q.
Proof.
  pose proof (qsum_shift 274 (fun i => pow2 (cvec_get capbuf (t + i)))) as Hs.
  rewrite qsum_snoc in Hs. cbv beta in Hs.
  replace (t + (0 + Z.of_nat 274)) with (t + 274) in Hs by lia.
  replace (t + 0) with t in Hs by lia.
  assert (He : fold_left (fun acc i => (acc + pow2 (cvec_get capbuf (t + (i + 1))))%Q)
                 (zrange 0 274) 0%Q
               = window_power capbuf (t + 1)).
  { unfold window_power. apply fold_left_pointwise. intros a i.
    replace (t + (i + 1)) with (t + 1 + i) by lia. reflexivity. }
  rewrite He in Hs.
  change (fold_left (fun acc i => (acc + pow2 (cvec_get capbuf (t + i)))%Q)
            (zrange 0 274) 0%Q)
    with (window_power capbuf t) in Hs.
  transitivity (pow2 (cvec_get capbuf t) + window_power capbuf (t + 1)
                - pow2 (cvec_get capbuf t))%Q; [ring |].
  rewrite <- Hs. ring.
Qed.

(** X15.  The running update of [sp_est] computes the sliding mean: for
    every offset [t], [sp[t]] equals the mean of the 274 powers
    [|capbuf[t]|^2 .. |capbuf[t+273]|^2] (in exact arithmetic), and is
    therefore never negative. *)
Theorem sp_at_window_mean (capbuf : list cplx) (t : nat) :
  (sp_at capbuf t == window_power capbuf (Z.of_nat t) / 274)%Q
  /\ (0 <= sp_at capbuf t)%Q.
Proof.
  assert (H : (sp_at capbuf t == window_power capbuf (Z.of_nat t) / 274)%Q).
  { induction t as [| t IH].
    - cbn [sp_at]. unfold window_power.
      assert (He : fold_left (fun acc t0 => (acc + pow2 (cvec_get capbuf t0))%Q)
                     (zrange 0 274) 0%Q
                   = fold_left (fun acc i =>
                                  (acc + pow2 (cvec_get capbuf (Z.of_nat 0 + i)))%Q)
                       (zrange 0 274) 0%Q).
      { apply fold_left_pointwise. intros a i. reflexivity. }
      rewrite He. reflexivity.
    - cbn [sp_at]. rewrite IH.
      replace (Z.of_nat (S t)) with (Z.of_nat t + 1) by lia.
      rewrite window_power_step. unfold pow2. field. }
  split; [exact H |].
  rewrite H. unfold window_power.
  apply Qle_shift_div_l; [reflexivity |].
  rewrite Qmult_0_l.
  apply (qsum_nonneg (fun i => pow2 (cvec_get capbuf (Z.of_nat t + i)))).
  intros i. apply pow2_nonneg.
Qed.

(** X16.  [sp_est] on a capture buffer of at least 9873 samples (and
    fewer than 65536 blocks): at least one block of 9600 offsets is
    estimated, [n_comb_sp] is [(n_cap-273)/9600] without wrap-around,
    [sp] has [n_comb_sp*9600] entries, and the running update for
    offset [t] reads [capbuf[t-1]] and [capbuf[t+273]] inside the
    buffer. *)
Theorem sp_est_in_buffer (capbuf : list cplx) :
  let n_cap := Z.of_nat (length capbuf) in
  let n := n_comb_sp n_cap in
  9873 <= n_cap < 629145873 ->
  1 <= n /\ n = (n_cap - 273) / 9600
  /\ Z.of_nat (length (sp_vec capbuf)) = n * 9600
  /\ forall t, 1 <= t < n * 9600 -> 0 <= t - 1 /\ t + 274 - 1 < n_cap.
Proof.
  intros n_cap n H.
  assert (Hn : n = (n_cap - 273) / 9600).
  { unfold n, n_comb_sp, wrap_uint16, wrap_uint32.
    replace (n_cap - 136 - 137) with (n_cap - 273) by lia.
    rewrite (Z.mod_small (n_cap - 273)) by lia.
    apply Z.mod_small. split; [apply Z.div_pos; lia |].
    apply Z.div_lt_upper_bound; lia. }
  assert (H1 : 1 <= n).
  { rewrite Hn. apply Z.div_le_lower_bound; lia. }
  assert (Hm : n * 9600 <= n_cap - 273).
  { rewrite Hn. pose proof (Z.mul_div_le (n_cap - 273) 9600). lia. }
  repeat split; try lia.
  unfold sp_vec. rewrite length_map, length_seq. fold n_cap. fold n.
  unfold wrap_uint32. rewrite Z.mod_small by lia. lia.
Qed.

Lemma sp_est_in_buffer_witness :
  n_comb_sp (Z.of_nat (length (repeat (mkC 0 0) (Z.to_nat 153600)))) = 15.
Proof.
  destruct (sp_est_in_buffer (repeat (mkC 0 0) (Z.to_nat 153600)))
    as (_ & H & _).
  - rewrite repeat_length. lia.
  - rewrite H. rewrite repeat_length. reflexivity.
Defined.

(** ** [xcorr_pss]: sizes, index ranges and signs *)







Lemma n_comb_xc_of_div (size : Z) :
  100 <= size < 629145700 ->
  n_comb_xc_of size = (size - 100) / 9600.
Proof.
  intros H. unfold n_comb_xc_of, wrap_uint16, wrap_uint64.
  rewrite (Z.mod_small (size - 100)) by lia.
  apply Z.mod_small. split; [apply Z.div_pos; lia |].
  apply Z.div_lt_upper_bound; lia.
Qed.

Lemma xc_correlate_rows (pss_template : Z -> Z -> list cplx)
    (capbuf : list cplx) (f_search_set : list Q) (t : Z) :
  0 <= t < 3 ->
  length (nth (Z.to_nat t) (xc_correlate pss_template capbuf f_search_set) [])
  = Z.to_nat (wrap_uint32
                (wrap_uint32 (Z.of_nat (length capbuf)) - 136)).
Proof.
  intros Ht. unfold xc_correlate. cbv zeta.
  rewrite (nth_map_zrange _ 3 t) by lia.
  rewrite length_map. apply length_zrange.
Qed.









(** X17.  [xc_correlate] followed by [xc_combine] on a capture buffer
    of [n_cap >= 236] samples (fewer than 65536 blocks).  Every PSS has
    [n_cap-136] correlations; [n_comb_xc] is [(n_cap-236)/9600]; and as
    long as the start of block [m] is at most 100 samples later than
    the nominal [9600*m], every correlation that the combining loop
    reads, [xc[t][idx+actual_start_index][foi]], exists. *)
Theorem xc_combine_reads_in_range (pss_template : Z -> Z -> list cplx)
    (round_i : Q -> Z) (capbuf : list cplx) (f_search_set : list Q)
    (fc_requested fc_programmed fs_programmed : Q) (twist : bool)
    (k_factor : Q) :
  let n_cap := Z.of_nat (length capbuf) in
  let xc := xc_correlate pss_template capbuf f_search_set in
  let n := snd (xc_combine round_i xc fc_requested fc_programmed
                  fs_programmed f_search_set twist k_factor) in
  let start := actual_start_index round_i fc_requested fc_programmed
                 fs_programmed f_search_set twist k_factor in
  236 <= n_cap < 629145836 ->
  (forall foi m, 0 <= m < (n_cap - 236) / 9600 ->
                 0 <= start foi m <= 9600 * m + 100) ->
  n = (n_cap - 236) / 9600
  /\ (forall t, 0 <= t < 3 ->
        Z.of_nat (length (nth (Z.to_nat t) xc [])) = n_cap - 136)
  /\ forall t foi m idx,
       0 <= t < 3 -> 0 <= m < n -> 0 <= idx < 9600 ->
       0 <= idx + start foi m < Z.of_nat (length (nth (Z.to_nat t) xc [])).
Proof.
  intros n_cap xc n start Hcap Hstart.
  assert (Hrows : forall t, 0 <= t < 3 ->
            Z.of_nat (length (nth (Z.to_nat t) xc [])) = n_cap - 136).
  { intros t Ht. unfold xc. rewrite xc_correlate_rows by exact Ht.
    fold n_cap. unfold wrap_uint32.
    rewrite (Z.mod_small n_cap) by lia.
    rewrite Z.mod_small by lia. lia. }
  assert (Hn : n = (n_cap - 236) / 9600).
  { unfold n, xc_combine. cbv zeta. cbn [snd].
    change (nth 0 xc []) with (nth (Z.to_nat 0) xc []).
    rewrite Hrows by lia. rewrite n_comb_xc_of_div by lia.
    f_equal. lia. }
  split; [exact Hn |]. split; [exact Hrows |].
  intros t foi m idx Ht Hm Hidx. rewrite Hrows by exact Ht.
  rewrite Hn in Hm. specialize (Hstart foi m Hm).
  pose proof (Z.mul_div_le (n_cap - 236) 9600 ltac:(lia)). nia.
Qed.

Lemma xc_combine_reads_in_range_witness :
  snd (xc_combine (fun q => Qfloor (q + (1 # 2)))
         (xc_correlate (fun _ _ => [])
            (repeat (mkC 0 0) (Z.to_nat 9836)) [0%Q])
         739000000 739000000 1920000 [0%Q] false 1)
  = (Z.of_nat (length (repeat (mkC 0 0) (Z.to_nat 9836))) - 236) / 9600.
Proof.
  apply (xc_combine_reads_in_range (fun _ _ => [])
           (fun q => Qfloor (q + (1 # 2)))
           (repeat (mkC 0 0) (Z.to_nat 9836)) [0%Q]
           739000000 739000000 1920000 false 1).
  - rewrite repeat_length. lia.
  - rewrite repeat_length. intros foi m Hm.
    change ((Z.of_nat (Z.to_nat 9836) - 236) / 9600) with 1 in Hm.
    assert (m = 0) as -> by lia.
    vm_compute. split; discriminate.
Defined.



(** ** [sss_detect]: the winning likelihood and the second threshold *)








(** ** [display_thread]: the coherence bandwidth *)

Lemma zrange_cons (lo : Z) (n : nat) :
  zrange lo (S n) = lo :: zrange (lo + 1) n.
Proof.
  unfold zrange. cbn [seq map]. f_equal; [lia |].
  rewrite <- seq_shift, map_map. apply map_ext. intros i. lia.
Qed.

Lemma cb_scan_spec (ac_abs : Z -> Q) (n : nat) :
  forall lo, 1 <= lo -> lo + Z.of_nat n <= 12 ->
  (cb_scan ac_abs (zrange lo n) = -1
   /\ forall k, lo <= k < lo + Z.of_nat n -> (ac_abs 0%Z / 2 < ac_abs k)%Q)
  \/ (exists k,
        lo <= k < lo + Z.of_nat n /\ cb_scan ac_abs (zrange lo n) = k
        /\ (ac_abs k <= ac_abs 0%Z / 2)%Q
        /\ forall j, lo <= j < k -> (ac_abs 0%Z / 2 < ac_abs j)%Q).
Proof.
  induction n as [| n IH]; intros lo Hlo Hhi.
  - left. split; [reflexivity | intros k Hk; lia].
  - rewrite zrange_cons. cbn [cb_scan].
    destruct (Qle_bool (ac_abs lo) (ac_abs 0%Z / 2)) eqn:E.
    + right. exists lo. apply Qle_bool_iff in E.
      split; [lia |]. split; [| split; [exact E | intros j Hj; lia]].
      unfold wrap_int8. rewrite Z.mod_small by lia. lia.
    + assert (Hk : (ac_abs 0%Z / 2 < ac_abs lo)%Q).
      { apply Qnot_le_lt. intros Hle. apply Qle_bool_iff in Hle. congruence. }
      destruct (IH (lo + 1) ltac:(lia) ltac:(lia))
        as [[H1 H2] | (k & Hr & H1 & H2 & H3)].
      * left. split; [exact H1 |]. intros j Hj.
        destruct (Z.eq_dec j lo) as [-> | Hne]; [exact Hk | apply H2; lia].
      * right. exists k. split; [lia |]. split; [exact H1 |].
        split; [exact H2 |]. intros j Hj.
        destruct (Z.eq_dec j lo) as [-> | Hne]; [exact Hk | apply H3; lia].
Qed.

(** X20.  The coherence bandwidth that [display_thread] prints for a
    port.  Either " >990 kHz" is printed, and then the magnitude of the
    frequency-domain autocorrelation exceeds half of its value at lag 0
    at every lag 1..11; or "v kHz" is printed with [v = 90*k] for the
    first lag [k] in 1..11 whose magnitude is at most half of the value
    at lag 0, so [v] is a multiple of 90 between 90 and 990. *)
Theorem cb_shown_spec (ac_abs : Z -> Q) :
  match cb_shown ac_abs with
  | None => forall k, 1 <= k <= 11 -> (ac_abs 0%Z / 2 < ac_abs k)%Q
  | Some v =>
    exists k, 1 <= k <= 11 /\ v = 90 * k /\ 90 <= v <= 990
              /\ (ac_abs k <= ac_abs 0%Z / 2)%Q
              /\ forall j, 1 <= j < k -> (ac_abs 0%Z / 2 < ac_abs j)%Q
  end.
Proof.
  unfold cb_shown, CB.
  destruct (cb_scan_spec ac_abs 11 1 ltac:(lia) ltac:(lia))
    as [[H1 H2] | (k & Hk & H1 & H2 & H3)].
  - rewrite H1. cbn [Z.eqb]. intros k Hk. apply H2. lia.
  - rewrite H1. destruct (Z.eqb_spec k (-1)) as [-> | _]; [lia |].
    exists k. split; [lia |]. split; [lia |]. split; [lia |].
    split; [exact H2 |]. intros j Hj. apply H3. lia.
Qed.

(** ** [filter_my]: the three loops are one convolution *)

Lemma zrange_app (n m : nat) :
  forall lo : Z,
  zrange lo (n + m) = zrange lo n ++ zrange (lo + Z.of_nat n) m.
Proof.
  induction n as [| n IH]; intros lo.
  - cbn [Nat.add]. replace (lo + Z.of_nat 0) with lo by lia. reflexivity.
  - cbn [Nat.add]. rewrite !zrange_cons, IH. cbn [app]. do 3 f_equal. lia.
Qed.

Lemma creal_fir_fold (c : Z -> Q) (x : Z -> cplx) (js : list Z) :
  forall a : cplx,
  creal (fold_left (fun acc j => Cadd acc (Cscale (c j) (x j))) js a)
  = fold_left (fun r j => (r + c j * creal (x j))%Q) js (creal a).
Proof.
  induction js as [| j js IH]; intros a; cbn [fold_left]; [reflexivity |].
  rewrite IH. reflexivity.
Qed.

Lemma cimag_fir_fold (c : Z -> Q) (x : Z -> cplx) (js : list Z) :
  forall a : cplx,
  cimag (fold_left (fun acc j => Cadd acc (Cscale (c j) (x j))) js a)
  = fold_left (fun r j => (r + c j * cimag (x j))%Q) js (cimag a).
Proof.
  induction js as [| j js IH]; intros a; cbn [fold_left]; [reflexivity |].
  rewrite IH. reflexivity.
Qed.

Lemma qfold_ext (g g' : Z -> Q) (l : list Z) :
  (forall j, In j l -> (g j == g' j)%Q) ->
  forall a a' : Q, (a == a')%Q ->
  (fold_left (fun r j => r + g j) l a
   == fold_left (fun r j => r + g' j) l a')%Q.
Proof.
  induction l as [| j l IH]; intros H a a' Ha; cbn [fold_left]; [exact Ha |].
  apply IH.
  - intros k Hk. apply H. right. exact Hk.
  - rewrite Ha, (H j) by (left; reflexivity). reflexivity.
Qed.

Lemma qfold_zero (g : Z -> Q) (l : list Z) :
  (forall j, In j l -> (g j == 0)%Q) ->
  forall a : Q, (fold_left (fun r j => r + g j) l a == a)%Q.
Proof.
  induction l as [| j l IH]; intros H a; cbn [fold_left]; [reflexivity |].
  rewrite IH by (intros k Hk; apply H; right; exact Hk).
  rewrite (H j) by (left; reflexivity). ring.
Qed.

(** The sum over the taps [lo..lo+n-1] equals the sum over all the taps
    [0..N-1] when the other taps contribute zero. *)
Lemma qfold_window (g g' : Z -> Q) (lo : Z) (n N : nat) :
  0 <= lo -> lo + Z.of_nat n <= Z.of_nat N ->
  (forall j, lo <= j < lo + Z.of_nat n -> (g j == g' j)%Q) ->
  (forall j, 0 <= j < Z.of_nat N ->
             ~ (lo <= j < lo + Z.of_nat n) -> (g' j == 0)%Q) ->
  (fold_left (fun r j => r + g j) (zrange lo n) 0
   == fold_left (fun r j => r + g' j) (zrange 0 N) 0)%Q.
Proof.
  intros Hlo Hhi Hin Hout.
  replace N with (Z.to_nat lo + (n + (N - Z.to_nat lo - n)))%nat by lia.
  rewrite (zrange_app (Z.to_nat lo)), (zrange_app n).
  rewrite !fold_left_app.
  replace (0 + Z.of_nat (Z.to_nat lo)) with lo by lia.
  rewrite (qfold_zero g' (zrange (lo + Z.of_nat n) _)).
  - apply qfold_ext.
    + intros j Hj. apply In_zrange in Hj. apply Hin. exact Hj.
    + symmetry. apply qfold_zero. intros j Hj. apply In_zrange in Hj.
      apply Hout; lia.
  - intros j Hj. apply In_zrange in Hj. apply Hout; lia.
Qed.

Lemma store_fold_length (G : Z -> nat) (F : Z -> cplx) (l : list Z) :
  forall tmp : list cplx,
  length (fold_left (fun t i => <[G i := F i]> t) l tmp) = length tmp.
Proof.
  induction l as [| i l IH]; intros tmp; cbn [fold_left]; [reflexivity |].
  rewrite IH. apply length_insert.
Qed.

(** What a loop of stores [tmpbuf[i-h]=F(i)] for [i=a..a+n-1] leaves at
    index [o]. *)
Lemma store_fold_nth (F : Z -> cplx) (h : Z) (n : nat) :
  forall (a : Z) (tmp : list cplx) (o : nat),
  h <= a -> (o < length tmp)%nat ->
  nth o (fold_left (fun t i => <[Z.to_nat (i - h) := F i]> t)
           (zrange a n) tmp) (mkC 0 0)
  = if Z.leb a (Z.of_nat o + h) && Z.ltb (Z.of_nat o + h) (a + Z.of_nat n)
    then F (Z.of_nat o + h) else nth o tmp (mkC 0 0).
Proof.
  induction n as [| n IH]; intros a tmp o Ha Ho.
  - cbn [zrange seq map fold_left].
    destruct (Z.leb_spec a (Z.of_nat o + h)),
             (Z.ltb_spec (Z.of_nat o + h) (a + Z.of_nat 0));
      cbn [andb]; try reflexivity; lia.
  - rewrite zrange_cons. cbn [fold_left].
    rewrite IH by (rewrite ?length_insert; lia).
    destruct (Z.leb_spec (a + 1) (Z.of_nat o + h)),
             (Z.ltb_spec (Z.of_nat o + h) (a + 1 + Z.of_nat n)),
             (Z.leb_spec a (Z.of_nat o + h)),
             (Z.ltb_spec (Z.of_nat o + h) (a + Z.of_nat (S n)));
      cbn [andb]; try reflexivity; try lia.
    all: try solve
      [rewrite !nth_lookup, list_lookup_insert_ne by lia; reflexivity].
    all: assert (E : Z.of_nat o + h = a) by lia;
      rewrite E; replace (Z.to_nat (a - h)) with o by lia;
      rewrite nth_lookup, list_lookup_insert_eq by exact Ho; reflexivity.
Qed.

Lemma fir_window (coef : list Q) (capbuf : list cplx) (i lo : Z) (n : nat) :
  0 <= lo -> lo + Z.of_nat n <= Z.of_nat (length coef) ->
  (forall j, lo <= j < lo + Z.of_nat n ->
             0 <= i - j < Z.of_nat (length capbuf)) ->
  (forall j, 0 <= j < Z.of_nat (length coef) ->
             ~ (lo <= j < lo + Z.of_nat n) ->
             ~ (0 <= i - j < Z.of_nat (length capbuf))) ->
  (creal (fir_acc coef capbuf i (zrange lo n))
   == creal (fir_pad coef capbuf i))%Q
  /\ (cimag (fir_acc coef capbuf i (zrange lo n))
      == cimag (fir_pad coef capbuf i))%Q.
Proof.
  intros Hlo Hhi Hin Hout. unfold fir_acc, fir_pad.
  pose proof (creal_fir_fold (vec_get coef)
                (fun j => cvec_get capbuf (i - j))) as R1.
  pose proof (creal_fir_fold (vec_get coef)
                (fun j => cvec_pad capbuf (i - j))) as R2.
  pose proof (cimag_fir_fold (vec_get coef)
                (fun j => cvec_get capbuf (i - j))) as I1.
  pose proof (cimag_fir_fold (vec_get coef)
                (fun j => cvec_pad capbuf (i - j))) as I2.
  cbv beta in R1, R2, I1, I2. rewrite R1, R2, I1, I2. cbn [creal cimag].
  assert (Hpad_in : forall j, lo <= j < lo + Z.of_nat n ->
            cvec_pad capbuf (i - j) = cvec_get capbuf (i - j)).
  { intros j Hj. unfold cvec_pad. specialize (Hin j Hj).
    destruct (Z.leb_spec 0 (i - j)), (Z.ltb_spec (i - j) (Z.of_nat (length capbuf)));
      cbn [andb]; try reflexivity; lia. }
  assert (Hpad_out : forall j, 0 <= j < Z.of_nat (length coef) ->
            ~ (lo <= j < lo + Z.of_nat n) ->
            cvec_pad capbuf (i - j) = mkC 0 0).
  { intros j Hj Hn. unfold cvec_pad. specialize (Hout j Hj Hn).
    destruct (Z.leb_spec 0 (i - j)), (Z.ltb_spec (i - j) (Z.of_nat (length capbuf)));
      cbn [andb]; try reflexivity; lia. }
  split.
  - apply (qfold_window
             (fun j => vec_get coef j * creal (cvec_get capbuf (i - j)))%Q
             (fun j => vec_get coef j * creal (cvec_pad capbuf (i - j)))%Q);
      try assumption.
    + intros j Hj. cbv beta. rewrite Hpad_in by exact Hj. reflexivity.
    + intros j Hj Hn. cbv beta. rewrite Hpad_out by assumption.
      cbn [creal]. ring.
  - apply (qfold_window
             (fun j => vec_get coef j * cimag (cvec_get capbuf (i - j)))%Q
             (fun j => vec_get coef j * cimag (cvec_pad capbuf (i - j)))%Q);
      try assumption.
    + intros j Hj. cbv beta. rewrite Hpad_in by exact Hj. reflexivity.
    + intros j Hj Hn. cbv beta. rewrite Hpad_out by assumption.
      cbn [cimag]. ring.
Qed.

(** X21.  [filter_my] with at least one tap and a buffer at least as
    long as the filter.  The output has the length of the input, and
    the head, body and tail loops together compute one centred
    convolution: output sample [o] is the sum over all the taps [j] of
    [coef[j]*capbuf[o+len_half-j]], where samples before the first and
    after the last one count as zero (in exact arithmetic). *)
Theorem filter_my_convolution (coef : list Q) (capbuf : list cplx) :
  let len := Z.of_nat (length capbuf) in
  let len_fir := Z.of_nat (length coef) in
  let len_half := (len_fir - 1) / 2 in
  1 <= len_fir <= 65535 -> len_fir <= len < 4294967296 ->
  length (filter_my coef capbuf) = length capbuf
  /\ forall o, 0 <= o < len ->
       (creal (cvec_get (filter_my coef capbuf) o)
        == creal (fir_pad coef capbuf (o + len_half)))%Q
       /\ (cimag (cvec_get (filter_my coef capbuf) o)
           == cimag (fir_pad coef capbuf (o + len_half)))%Q.
Proof.
  intros len len_fir len_half Hfir Hlen.
  assert (E1 : wrap_uint32 (Z.of_nat (length capbuf)) = len)
    by (unfold wrap_uint32; apply Z.mod_small; lia).
  assert (E2 : wrap_uint16 (Z.of_nat (length coef)) = len_fir)
    by (unfold wrap_uint16; apply Z.mod_small; lia).
  assert (Hh : 0 <= len_half /\ 2 * len_half <= len_fir - 1
               /\ len_fir - 1 <= 2 * len_half + 1).
  { unfold len_half.
    pose proof (Z.div_mod (len_fir - 1) 2 ltac:(lia)).
    pose proof (Z.mod_pos_bound (len_fir - 1) 2 ltac:(lia)).
    pose proof (Z.div_pos (len_fir - 1) 2 ltac:(lia) ltac:(lia)). lia. }
  assert (E3 : wrap_uint16 (Z.quot (len_fir - 1) 2) = len_half).
  { rewrite Z.quot_div_nonneg by lia. fold len_half.
    unfold wrap_uint16. apply Z.mod_small. lia. }
  split.
  - unfold filter_my. cbv zeta. rewrite !store_fold_length, repeat_length.
    rewrite E1. lia.
  - intros o Ho.
    assert (Hc : exists lo n,
              0 <= lo /\ lo + Z.of_nat n <= len_fir
              /\ (forall j, lo <= j < lo + Z.of_nat n ->
                            0 <= o + len_half - j < len)
              /\ (forall j, 0 <= j < len_fir ->
                            ~ (lo <= j < lo + Z.of_nat n) ->
                            ~ (0 <= o + len_half - j < len))
              /\ cvec_get (filter_my coef capbuf) o
                 = fir_acc coef capbuf (o + len_half) (zrange lo n)).
    { unfold cvec_get at 1. unfold filter_my. cbv zeta.
      rewrite E1, E2, E3.
      pose proof (store_fold_nth
        (fun i => fir_acc coef capbuf i
           (zrange (i - len + 1) (Z.to_nat (len_fir - (i - len + 1)))))
        len_half (Z.to_nat len_half) len) as S3.
      pose proof (store_fold_nth
        (fun i => fir_acc coef capbuf i (zrange 0 (Z.to_nat len_fir)))
        len_half (Z.to_nat (len - len_fir)) len_fir) as S2.
      pose proof (store_fold_nth
        (fun i => fir_acc coef capbuf i (zrange 0 (Z.to_nat (i + 1))))
        len_half (Z.to_nat (len_fir - len_half)) len_half) as S1.
      cbv beta in S1, S2, S3.
      rewrite S3, S2, S1;
        rewrite ?store_fold_length, ?repeat_length; try lia.
      replace (Z.of_nat (Z.to_nat o)) with o by lia.
      destruct (Z.leb_spec len (o + len_half)),
               (Z.ltb_spec (o + len_half) (len + Z.of_nat (Z.to_nat len_half)));
        cbn [andb]; try lia.
      - exists (o + len_half - len + 1),
               (Z.to_nat (len_fir - (o + len_half - len + 1))).
        repeat split; try lia. 
      - destruct (Z.leb_spec len_fir (o + len_half)),
                 (Z.ltb_spec (o + len_half)
                    (len_fir + Z.of_nat (Z.to_nat (len - len_fir))));
          cbn [andb]; try lia.
        + exists 0, (Z.to_nat len_fir). repeat split; try lia.
        + destruct (Z.leb_spec len_half (o + len_half)),
                   (Z.ltb_spec (o + len_half)
                      (len_half + Z.of_nat (Z.to_nat (len_fir - len_half))));
            cbn [andb]; try lia.
          exists 0, (Z.to_nat (o + len_half + 1)). repeat split; try lia. }
    destruct Hc as (lo & n & Hlo & Hhi & Hin & Hout & ->).
    apply fir_window; assumption.
Qed.

Lemma filter_my_convolution_witness :
  length (filter_my [1%Q; 2%Q; 1%Q]
            [mkC 1 0; mkC 0 1; mkC 2 0; mkC 0 0])
  = 4%nat.
Proof.
  apply (filter_my_convolution [1%Q; 2%Q; 1%Q]
           [mkC 1 0; mkC 0 1; mkC 2 0; mkC 0 0]).
  - simpl. lia.
  - simpl. lia.
Defined.

(** ** [sss_detect_getce_sss]: the windows and the end of the buffer *)

Lemma Qfloor_div_9600 (d : Z) : Qfloor (inject_Z d / 9600) = d / 9600.
Proof.
  unfold Qfloor, Qdiv, Qmult, Qinv, inject_Z. cbn.
  rewrite Z.mul_1_r. reflexivity.
Qed.

Lemma Qltb_inject_Z (a b : Z) : Qltb (inject_Z a) (inject_Z b) = Z.ltb a b.
Proof.
  destruct (Z.ltb_spec a b) as [H | H].
  - apply Qltb_lt. rewrite <- Zlt_Qlt. exact H.
  - apply Qltb_ge. rewrite <- Zle_Qle. exact H.
Qed.

Lemma sss_peak_loc_int (cell : Cell) (tdd_flag : Z) :
  (sss_peak_loc cell 1 tdd_flag
   == inject_Z (if Z.ltb (ind cell) (sss_min_idx tdd_flag)
                then ind cell + 9600 else ind cell))%Q.
Proof.
  unfold sss_peak_loc. cbv zeta. rewrite Qltb_inject_Z.
  destruct (Z.ltb (ind cell) (sss_min_idx tdd_flag)); [| reflexivity].
  rewrite inject_Z_plus. change (inject_Z 9600) with 9600%Q. ring.
Qed.

Lemma sss_getce_reads_list (round_i : Q -> Z) (cell : Cell) (n_cap : Z)
    (tdd_flag : Z) :
  (forall q z, (q == inject_Z z)%Q -> round_i q = z) ->
  let pl := if Z.ltb (ind cell) (sss_min_idx tdd_flag)
            then ind cell + 9600 else ind cell in
  0 <= pl -> pl + 9600 * ((n_cap - 134 - pl) / 9600) + 7 < 4294967296 ->
  pl + 7 >= sss_ext_offset tdd_flag -> pl + 7 >= sss_nrm_offset tdd_flag ->
  pl <= n_cap - 134 ->
  sss_getce_reads round_i cell n_cap 1 tdd_flag
  = map (fun t => mkReads (pl + 9600 * t + 7)
                    (pl + 9600 * t + 7 - sss_ext_offset tdd_flag)
                    (pl + 9600 * t + 7 - sss_nrm_offset tdd_flag))
        (zrange 0 (Z.to_nat ((n_cap - 134 - pl) / 9600 + 1))).
Proof.
  intros Hr pl Hpl Hmax He Hn Hcap.
  pose proof (sss_peak_loc_int cell tdd_flag) as Hloc. fold pl in Hloc.
  unfold sss_getce_reads, pss_loc_set, matlab_range_step.
  assert (EM : Qfloor ((inject_Z n_cap - 125 - 9
                        - sss_peak_loc cell 1 tdd_flag) / (1 * 9600))
               = (n_cap - 134 - pl) / 9600).
  { rewrite <- Qfloor_div_9600. apply Qfloor_comp. rewrite Hloc.
    replace (n_cap - 134 - pl) with (n_cap + -134 + - pl) by lia.
    rewrite !inject_Z_plus, inject_Z_opp.
    change (inject_Z (-134)) with (-134)%Q. field. }
  rewrite EM. rewrite map_map. apply map_ext_in. intros t Ht.
  apply In_zrange in Ht.
  assert (Hdiv : 0 <= (n_cap - 134 - pl) / 9600)
    by (apply Z.div_pos; lia).
  assert (Ex : round_i (sss_peak_loc cell 1 tdd_flag
                        + inject_Z t * (1 * 9600))%Q = pl + 9600 * t).
  { apply Hr. rewrite Hloc, inject_Z_plus, inject_Z_mult.
    change (inject_Z 9600) with 9600%Q. ring. }
  rewrite Ex. cbv zeta.
  assert (Ht' : 9600 * t <= 9600 * ((n_cap - 134 - pl) / 9600)) by nia.
  unfold wrap_uint32.
  rewrite (Z.mod_small (pl + 9600 * t)) by lia.
  replace (pl + 9600 * t + 9 - 2) with (pl + 9600 * t + 7) by lia.
  rewrite (Z.mod_small (pl + 9600 * t + 7)) by lia.
  unfold sss_ext_offset, sss_nrm_offset in *.
  destruct (Z.eqb tdd_flag 1); rewrite !Z.mod_small by lia; reflexivity.
Qed.

(** X22.  The windows [sss_detect_getce_sss] reads from a capture
    buffer of [n_cap] samples for a cell found by [peak_search]
    ([cell.ind] an integer in -1..9599), with [k_factor = 1] and a
    rounding that leaves integers alone.  At least one PSS location is
    processed; both SSS windows of every location lie inside the
    buffer; the PSS window [capbuf.mid(pss_dft_location,128)] starts
    inside the buffer and ends at most one sample past its end; and it
    does end one sample past the end, for the last location, exactly
    when [n_cap-134-peak_loc] is a multiple of 9600: the bound
    [capbuf.length()-125-9] of the PSS locations is one too large for
    the window [pss_loc+7 .. pss_loc+134]. *)
Theorem sss_getce_reads_windows (round_i : Q -> Z) (cell : Cell)
    (n_cap : Z) (tdd_flag : Z) :
  (forall q z, (q == inject_Z z)%Q -> round_i q = z) ->
  -1 <= ind cell < 9600 -> 20000 <= n_cap < 600000000 ->
  let peak_loc := if Z.ltb (ind cell) (sss_min_idx tdd_flag)
                  then ind cell + 9600 else ind cell in
  let reads := sss_getce_reads round_i cell n_cap 1 tdd_flag in
  reads <> []
  /\ List.Forall (fun r =>
       window_inside n_cap (sss_ext_location r)
       /\ window_inside n_cap (sss_nrm_location r)
       /\ 0 <= pss_dft_location r
       /\ pss_dft_location r + 128 <= n_cap + 1) reads
  /\ (List.Exists (fun r => ~ window_inside n_cap (pss_dft_location r)) reads
      <-> (n_cap - 134 - peak_loc) mod 9600 = 0).
Proof.
  intros Hr Hind Hcap peak_loc reads.
  set (M := (n_cap - 134 - peak_loc) / 9600).
  assert (Hmin : sss_min_idx tdd_flag <= peak_loc < 19200).
  { unfold peak_loc, sss_min_idx.
    destruct (Z.eqb tdd_flag 1);
      match goal with |- context [Z.ltb ?a ?b] =>
        destruct (Z.ltb_spec a b) end; lia. }
  assert (Hoff : sss_ext_offset tdd_flag <= sss_min_idx tdd_flag + 6
                 /\ sss_nrm_offset tdd_flag <= sss_min_idx tdd_flag + 6
                 /\ 1 <= sss_ext_offset tdd_flag
                 /\ 1 <= sss_nrm_offset tdd_flag
                 /\ 154 <= sss_min_idx tdd_flag).
  { unfold sss_ext_offset, sss_nrm_offset, sss_min_idx.
    destruct (Z.eqb tdd_flag 1); lia. }
  assert (HM : 0 <= M) by (apply Z.div_pos; lia).
  assert (HMle : 9600 * M <= n_cap - 134 - peak_loc)
    by (apply Z.mul_div_le; lia).
  assert (HMmod : n_cap - 134 - peak_loc
                  = 9600 * M + (n_cap - 134 - peak_loc) mod 9600)
    by (apply Z.div_mod; lia).
  pose proof (Z.mod_pos_bound (n_cap - 134 - peak_loc) 9600 ltac:(lia))
    as Hmodb.
  assert (E : reads
              = map (fun t => mkReads (peak_loc + 9600 * t + 7)
                       (peak_loc + 9600 * t + 7 - sss_ext_offset tdd_flag)
                       (peak_loc + 9600 * t + 7 - sss_nrm_offset tdd_flag))
                  (zrange 0 (Z.to_nat (M + 1)))).
  { unfold reads. apply sss_getce_reads_list; fold peak_loc; fold M;
      try assumption; lia. }
  rewrite E. split; [| split].
  - replace (Z.to_nat (M + 1)) with (S (Z.to_nat M)) by lia.
    rewrite zrange_cons. discriminate.
  - apply List.Forall_forall. intros r Hin.
    apply in_map_iff in Hin as (t & <- & Ht). apply In_zrange in Ht.
    cbn [pss_dft_location sss_ext_location sss_nrm_location].
    unfold window_inside.
    assert (Ht' : 9600 * t <= 9600 * M) by nia. lia.
  - rewrite List.Exists_exists. split.
    + intros (r & Hin & Hout).
      apply in_map_iff in Hin as (t & <- & Ht). apply In_zrange in Ht.
      cbn [pss_dft_location] in Hout. unfold window_inside in Hout.
      assert (Ht' : 9600 * t <= 9600 * M) by nia. lia.
    + intros Hz.
      exists (mkReads (peak_loc + 9600 * M + 7)
                (peak_loc + 9600 * M + 7 - sss_ext_offset tdd_flag)
                (peak_loc + 9600 * M + 7 - sss_nrm_offset tdd_flag)).
      split.
      * apply in_map_iff. exists M. split; [reflexivity |].
        apply In_zrange. lia.
      * cbn [pss_dft_location]. unfold window_inside. lia.
Qed.

Lemma Qfloor_half_int (q : Q) (z : Z) :
  (q == inject_Z z)%Q -> Qfloor (q + (1 # 2)) = z.
Proof.
  intros H. rewrite (Qfloor_comp _ (inject_Z z + (1 # 2))%Q)
    by (rewrite H; reflexivity).
  unfold Qfloor, Qplus, inject_Z. cbn.
  replace (z * 2 + 1 * 1) with (1 + z * 2) by lia.
  rewrite Z.div_add by lia. reflexivity.
Qed.

Lemma sss_getce_reads_windows_witness :
  List.Exists
    (fun r => ~ window_inside 153600 (pss_dft_location r))
    (sss_getce_reads (fun q => Qfloor (q + (1 # 2)))
       (mkCell 0 0 0 9466 0 0 0 cp_type_t.UNKNOWN 0 0 0 0 0 0
          phich_duration_t.UNKNOWN phich_resource_t.UNKNOWN 0)
       153600 1 0).
Proof.
  apply (sss_getce_reads_windows (fun q => Qfloor (q + (1 # 2)))
           (mkCell 0 0 0 9466 0 0 0 cp_type_t.UNKNOWN 0 0 0 0 0 0
              phich_duration_t.UNKNOWN phich_resource_t.UNKNOWN 0)
           153600 0).
  - exact Qfloor_half_int.
  - cbn. lia.
  - lia.
  - reflexivity.
Defined.

(** ** [ce_interp_2stage]: the neighbours of a missing sample *)

(** X23.  Filling a missing sample [(t,k)] of the 24-column grid in
    [ce_interp_2stage] ([0 <= t < n_rs_ofdm], [0 <= k < 24]): every
    entry of [ce_filt] that is read exists (row in [0..n_rs_ofdm-1],
    column in 0..11), no entry is read twice, and between 1 and 4
    entries are averaged, so [total/n_total] never divides by zero;
    exactly 4 are averaged when the sample has a row above, a row
    below and is not in the first or the last column. *)
Theorem ce_exp_reads_spec (t n_rs_ofdm k : Z) :
  0 <= t < n_rs_ofdm -> 0 <= k < 24 ->
  List.Forall (fun rc => 0 <= fst rc < n_rs_ofdm /\ 0 <= snd rc < 12)
    (ce_exp_reads t n_rs_ofdm k)
  /\ List.NoDup (ce_exp_reads t n_rs_ofdm k)
  /\ 1 <= ce_exp_n_total t n_rs_ofdm k <= 4
  /\ (ce_exp_n_total t n_rs_ofdm k = 4
      <-> 1 <= t /\ t + 1 < n_rs_ofdm /\ 1 <= k <= 22).
Proof.
  intros Ht Hk. unfold ce_exp_n_total, ce_exp_reads.
  rewrite !Z.shiftr_div_pow2 by lia. change (2 ^ 1) with 2.
  assert (H0 : 0 <= k / 2 < 12) by (Z.to_euclidean_division_equations; lia).
  assert (Hl : (0 <= (k - 1) / 2 <-> 1 <= k) /\ (k - 1) / 2 < 12)
    by (Z.to_euclidean_division_equations; lia).
  assert (Hr : ((k + 1) / 2 < 12 <-> k <= 22) /\ 0 <= (k + 1) / 2)
    by (Z.to_euclidean_division_equations; lia).
  assert (Hd : (k - 1) / 2 <> (k + 1) / 2)
    by (Z.to_euclidean_division_equations; lia).
  destruct (Z.leb_spec 0 (t - 1)), (Z.ltb_spec (t + 1) n_rs_ofdm),
           (Z.leb_spec 0 ((k - 1) / 2)), (Z.ltb_spec ((k + 1) / 2) 12);
    cbn [app length]; unfold wrap_uint8.
  all: split;
    [ rewrite ?List.Forall_cons_iff; cbn [fst snd];
      repeat split; try lia; apply List.Forall_nil | ].
  all: split;
    [ repeat (apply List.NoDup_cons;
              [ cbn [In]; intros Hin; decompose [or] Hin;
                try contradiction;
                match goal with
                | H : (_, _) = (_, _) |- _ => injection H; intros; lia
                end | ]);
      apply List.NoDup_nil | ].
  all: split; [Z.to_euclidean_division_equations; lia |].
  all: split; intros; Z.to_euclidean_division_equations; lia.
Qed.

Lemma ce_exp_reads_spec_witness :
  ce_exp_n_total 0 1 0 = 1.
Proof.
  destruct (ce_exp_reads_spec 0 1 0) as (_ & _ & H & _); [lia | lia |].
  vm_compute. reflexivity.
Defined.

(** ** [xc_delay_spread]: the [uint8] counter *)

Lemma ds_counter_run (arm : Z) (n : nat) :
  forall t, 1 <= t -> t + Z.of_nat n = arm + 1 -> arm <= 254 ->
  ds_counter (S n) t arm = Some (zrange t n).
Proof.
  induction n as [| n IH]; intros t Ht Hn Harm.
  - cbn [ds_counter]. destruct (Z.leb_spec t arm); [lia | reflexivity].
  - cbn [ds_counter]. destruct (Z.leb_spec t arm); [| lia].
    assert (E : wrap_uint8 (t + 1) = t + 1)
      by (unfold wrap_uint8; apply Z.mod_small; lia).
    rewrite E.
    pose proof (IH (t + 1) ltac:(lia) ltac:(lia) Harm) as H'.
    cbn [ds_counter] in H'. rewrite H'. rewrite zrange_cons. reflexivity.
Qed.

Lemma ds_counter_255 (fuel : nat) :
  forall t, 0 <= t <= 255 -> ds_counter fuel t 255 = None.
Proof.
  induction fuel as [| fuel IH]; intros t Ht; [reflexivity |].
  cbn [ds_counter]. destruct (Z.leb_spec t 255); [| lia].
  rewrite IH; [reflexivity |].
  unfold wrap_uint8. pose proof (Z.mod_pos_bound (t + 1) 256). lia.
Qed.

(** X24.  The loop of [xc_delay_spread] over the pairs of neighbours
    counts with a [uint8].  For [ds_comb_arm <= 254] the body runs for
    [t = 1, 2, .., ds_comb_arm] and the loop ends after
    [ds_comb_arm+1] tests; for [ds_comb_arm = 255] the test
    [t<=ds_comb_arm] can never fail, the counter wraps from 255 to 0
    and the loop does not end, whatever the bound on the number of
    tests. *)
Theorem xc_delay_spread_counter (ds_comb_arm : Z) :
  0 <= ds_comb_arm <= 255 ->
  (ds_comb_arm <= 254 ->
   ds_counter (S (Z.to_nat ds_comb_arm)) 1 ds_comb_arm
   = Some (zrange 1 (Z.to_nat ds_comb_arm)))
  /\ (ds_comb_arm = 255 ->
      forall fuel, ds_counter fuel 1 ds_comb_arm = None).
Proof.
  intros H. split.
  - intros Hle. apply ds_counter_run; lia.
  - intros -> fuel. apply ds_counter_255. lia.
Qed.

Lemma xc_delay_spread_counter_witness :
  ds_counter 3 1 2 = Some [1; 2].
Proof.
  apply (xc_delay_spread_counter 2); lia.
Defined.
